(** * KaleidoSwap registry: the fetch, filter and sort pipeline of [App.tsx]

    A shallow embedding of the logical core of the registry front end:
    the two [queryFn] fetchers with their error normalisation, the pair and
    asset filters, [sortData], the derived [sortedPairs] view and the
    loading / error / data decision of the two page sections. *)

From Stdlib Require Import ZArith QArith String Ascii List Permutation Sorted Lia.
From stdpp Require Import base option list strings gmap.

Set Warnings "-register-all".

Local Open Scope Z_scope.
Local Open Scope string_scope.
Local Open Scope list_scope.

(** ** JavaScript strings

    Strings are sequences of code units; the identifiers and tickers of the
    registry are ASCII, so a code unit is an [ascii] here and
    [toLowerCase] maps [A-Z] to [a-z] and leaves every other unit alone.
    (On other letters the built-in folds case too and may change the length
    of the string; the properties below are stated on the lowercase forms
    and use no more of [toLowerCase] than that it is a function.) *)

Definition lower_unit (c : ascii) : ascii :=
  let n := N_of_ascii c in
  if ((65 <=? n) && (n <=? 90))%N then ascii_of_N (n + 32) else c.

Fixpoint toLowerCase (s : string) : string :=
  match s with
  | EmptyString => EmptyString
  | String c s' => String (lower_unit c) (toLowerCase s')
  end.

(** [s.includes(t)]: [t] starts at some position of [s]. *)
Fixpoint includes (s t : string) : bool :=
  String.prefix t s ||
  match s with
  | EmptyString => false
  | String _ s' => includes s' t
  end.

(** The mathematical reading of "contains as a substring". *)
Definition substring_of (t s : string) : Prop :=
  exists pre post : string, s = pre +:+ t +:+ post.

(** ** Data model: the [Asset] and [Pair] interfaces *)

Module Balance.
Record t := mk {
  settled : Q;
  future : Q;
  spendable : Q;
  offchain_outbound : Q;
  offchain_inbound : Q
}.
End Balance.

Module Asset.
Record t := mk {
  asset_id : string;
  asset_iface : string;
  ticker : string;
  name : string;
  precision : Q;
  issued_supply : Q;
  is_active : bool;
  balance : Balance.t
}.
End Asset.

Module Pair.
Record t := mk {
  id : string;
  base_asset : string;
  base_asset_id : string;
  quote_asset : string;
  quote_asset_id : string;
  is_active : bool;
  min_order_size : Q;
  max_order_size : Q;
  price_precision : Q;
  quantity_precision : Q
}.
End Pair.

(** The bodies of the two endpoints: [{ assets: Asset[] }] and
    [{ pairs: Pair[] }]. *)
Record AssetsData := { assets : list Asset.t }.
Record PairsData := { pairs : list Pair.t }.

(** ** The pair and asset filters *)

(** The callback handed to [pairsData?.pairs.filter]. *)
Definition pair_matches (pairFilter : string) (pair : Pair.t) : bool :=
  includes (toLowerCase (Pair.base_asset pair +:+ "/" +:+ Pair.quote_asset pair))
           (toLowerCase pairFilter)
  || includes (toLowerCase (Pair.base_asset_id pair)) (toLowerCase pairFilter)
  || includes (toLowerCase (Pair.quote_asset_id pair)) (toLowerCase pairFilter).

(** [pairsData?.pairs.filter(...) || []]: an array is always truthy, so the
    [|| []] branch is taken exactly when [pairsData] is undefined. *)
Definition filteredPairs (pairsData : option PairsData) (pairFilter : string)
  : list Pair.t :=
  match pairsData with
  | Some d => List.filter (pair_matches pairFilter) (pairs d)
  | None => []
  end.

Definition asset_matches (assetFilter : string) (asset : Asset.t) : bool :=
  includes (toLowerCase (Asset.ticker asset)) (toLowerCase assetFilter)
  || includes (toLowerCase (Asset.name asset)) (toLowerCase assetFilter)
  || includes (toLowerCase (Asset.asset_id asset)) (toLowerCase assetFilter).

Definition filteredAssets (assetsData : option AssetsData) (assetFilter : string)
  : list Asset.t :=
  match assetsData with
  | Some d => List.filter (asset_matches assetFilter) (assets d)
  | None => []
  end.

(** The claim's reading of "the pair matches [t]". *)
Definition pair_matching (t : string) (pair : Pair.t) : Prop :=
  substring_of (toLowerCase t)
    (toLowerCase (Pair.base_asset pair +:+ "/" +:+ Pair.quote_asset pair))
  \/ substring_of (toLowerCase t) (toLowerCase (Pair.base_asset_id pair))
  \/ substring_of (toLowerCase t) (toLowerCase (Pair.quote_asset_id pair)).

(** ** Property reads and the relational operators

    The values a property of a [Pair] or an [Asset] can hold.  Numbers are
    the finite numbers a JSON body delivers, ordered as the rationals they
    denote; [VObject] is a plain nested record such as [balance]. *)
Inductive value :=
| VUndefined
| VString (s : string)
| VNumber (q : Q)
| VBoolean (b : bool)
| VObject.

(** [ToNumber] of a boolean, and [ToPrimitive] of a plain object. *)
Definition boolean_number (b : bool) : Q := if b then 1%Q else 0%Q.

Definition object_text : string := "[object Object]".

Definition number_lt (p q : Q) : bool :=
  match (p ?= q)%Q with Lt => true | _ => false end.

(** [a < b].  Two strings compare by code units; numbers and booleans
    compare numerically, a boolean counting as 0 or 1; a plain object
    stands for its text, which is no number; [undefined] is less than
    nothing and nothing is less than it.  One case is left out: a string
    against a number or a boolean, which the engine decides by parsing the
    string.  It cannot arise between the same property of two records of one
    interface, and the model answers [false] there. *)
Definition js_lt (a b : value) : bool :=
  match a, b with
  | VString s, VString t => String.ltb s t
  | VString s, VObject => String.ltb s object_text
  | VObject, VString t => String.ltb object_text t
  | VNumber p, VNumber q => number_lt p q
  | VNumber p, VBoolean y => number_lt p (boolean_number y)
  | VBoolean x, VNumber q => number_lt (boolean_number x) q
  | VBoolean x, VBoolean y => number_lt (boolean_number x) (boolean_number y)
  | _, _ => false
  end.

(** [a > b] is [b < a]. *)
Definition js_gt (a b : value) : bool := js_lt b a.

(** An object as the list of its own properties; [obj[key]] is the value
    of the first property of that name and [undefined] when there is none.
    (A name found on [Object.prototype] only reads the same inherited member
    in every record; to the comparator that is as good as [undefined]:
    neither [<] nor [>] holds between a member and itself.) *)
Fixpoint get_property (props : list (string * value)) (key : string) : value :=
  match props with
  | [] => VUndefined
  | (k, v) :: rest => if String.eqb key k then v else get_property rest key
  end.

Definition pair_props (p : Pair.t) : list (string * value) :=
  [ ("id", VString (Pair.id p));
    ("base_asset", VString (Pair.base_asset p));
    ("base_asset_id", VString (Pair.base_asset_id p));
    ("quote_asset", VString (Pair.quote_asset p));
    ("quote_asset_id", VString (Pair.quote_asset_id p));
    ("is_active", VBoolean (Pair.is_active p));
    ("min_order_size", VNumber (Pair.min_order_size p));
    ("max_order_size", VNumber (Pair.max_order_size p));
    ("price_precision", VNumber (Pair.price_precision p));
    ("quantity_precision", VNumber (Pair.quantity_precision p)) ].

Definition asset_props (a : Asset.t) : list (string * value) :=
  [ ("asset_id", VString (Asset.asset_id a));
    ("asset_iface", VString (Asset.asset_iface a));
    ("ticker", VString (Asset.ticker a));
    ("name", VString (Asset.name a));
    ("precision", VNumber (Asset.precision a));
    ("issued_supply", VNumber (Asset.issued_supply a));
    ("is_active", VBoolean (Asset.is_active a));
    ("balance", VObject) ].

(** [pair[key]] and [asset[key]]. *)
Definition pair_get (p : Pair.t) (key : string) : value :=
  get_property (pair_props p) key.

Definition asset_get (a : Asset.t) (key : string) : value :=
  get_property (asset_props a) key.

(** The [typeof] classes of the property values. *)
Inductive js_type := TUndefined | TString | TNumber | TBoolean | TObject.

Definition type_of (v : value) : js_type :=
  match v with
  | VUndefined => TUndefined
  | VString _ => TString
  | VNumber _ => TNumber
  | VBoolean _ => TBoolean
  | VObject => TObject
  end.

(** A property reader is typed by an interface when the type of [a[key]]
    depends on [key] alone. *)
Definition typed_by {T} (get : T -> string -> value) : Prop :=
  forall (a b : T) (key : string), type_of (get a key) = type_of (get b key).

(** ** Sorting *)

Inductive Direction := asc | desc.

Record SortConfig := { key : string; direction : Direction }.

(** [Array.prototype.sort(compareFn)] is a stable sort: with a consistent
    comparator the outcome is the one array that is ordered by the sign of
    [compareFn] and keeps ties in their original order.  The stable
    insertion sort computes that array: an element goes in front of the
    first later element it does not exceed. *)
Fixpoint sort_insert {T} (compareFn : T -> T -> Z) (x : T) (l : list T) : list T :=
  match l with
  | [] => [x]
  | y :: l' =>
      if (compareFn x y <=? 0)%Z then x :: y :: l'
      else y :: sort_insert compareFn x l'
  end.

Fixpoint Array_sort {T} (compareFn : T -> T -> Z) (l : list T) : list T :=
  match l with
  | [] => []
  | x :: l' => sort_insert compareFn x (Array_sort compareFn l')
  end.

Section SortData.
Context {T : Type} (get : T -> string -> value).

(** The arrow function passed to [sort] inside [sortData]. *)
Definition compareFn (key : string) (direction : Direction) (a b : T) : Z :=
  if js_lt (get a key) (get b key) then
    match direction with asc => -1 | desc => 1 end
  else if js_gt (get a key) (get b key) then
    match direction with asc => 1 | desc => -1 end
  else 0.

(** [sortData(data, key, direction)] as a function of the array contents;
    [sortData_st] below is the same function over the store of arrays. *)
Definition sortData (data : list T) (key : string) (direction : Direction) : list T :=
  Array_sort (compareFn key direction) data.

End SortData.

(** [sortConfig && filteredPairs.length > 0 ? sortData(...) : filteredPairs] *)
Definition sortedPairs (pairsData : option PairsData) (pairFilter : string)
    (sortConfig : option SortConfig) : list Pair.t :=
  let filtered := filteredPairs pairsData pairFilter in
  match sortConfig with
  | Some c =>
      if (0 <? length filtered)%nat
      then sortData pair_get filtered (key c) (direction c)
      else filtered
  | None => filtered
  end.

Definition sortedAssets (assetsData : option AssetsData) (assetFilter : string)
    (sortConfig : option SortConfig) : list Asset.t :=
  let filtered := filteredAssets assetsData assetFilter in
  match sortConfig with
  | Some c =>
      if (0 <? length filtered)%nat
      then sortData asset_get filtered (key c) (direction c)
      else filtered
  | None => filtered
  end.

(** Monotone sequences of property values, read with the comparator's own
    tests: ascending, no value is greater than a later one; descending, no
    value is less than a later one. *)
Definition in_order (direction : Direction) (a b : value) : Prop :=
  match direction with
  | asc => js_gt a b = false
  | desc => js_lt a b = false
  end.

Definition non_decreasing (vs : list value) : Prop :=
  StronglySorted (in_order asc) vs.

Definition non_increasing (vs : list value) : Prop :=
  StronglySorted (in_order desc) vs.

Definition monotone (direction : Direction) (vs : list value) : Prop :=
  match direction with
  | asc => non_decreasing vs
  | desc => non_increasing vs
  end.

(** [a] may stand before [b] in an array sorted by [compareFn]. *)
Definition precedes {T} (compareFn : T -> T -> Z) (a b : T) : Prop :=
  (compareFn a b <=? 0)%Z = true.

(** Two elements between which the comparator does not decide. *)
Definition tied {T} (compareFn : T -> T -> Z) (a b : T) : bool :=
  (compareFn a b <=? 0)%Z && (compareFn b a <=? 0)%Z.

(** [l'] keeps the elements tied with any given one in the order of [l]. *)
Definition keeps_ties {T} (compareFn : T -> T -> Z) (l l' : list T) : Prop :=
  forall z, List.filter (tied compareFn z) l' = List.filter (tied compareFn z) l.

(** ** The data fetcher *)

Inductive Network := signet | regtest.

Definition API_ENDPOINTS (network : Network) : string :=
  match network with
  | signet => "https://api.signet.kaleidoswap.com"
  | regtest => "https://api.regtest.kaleidoswap.com"
  end.

(** A parsed response body. *)
Inductive json :=
| JNull
| JBool (b : bool)
| JNumber (q : Q)
| JString (s : string)
| JArray (items : list json)
| JObject (members : list (string * json)).

Module AxiosResponse.
Record t := mk { status : Z; data : option json }.
End AxiosResponse.

(** What [axios.isAxiosError] recognises: the transport code (when there
    is one), the raw error text, and the response (when one was received). *)
Module AxiosError.
Record t := mk {
  code : option string;
  message : string;
  response : option AxiosResponse.t
}.
End AxiosError.

(** The normalised error thrown by the fetchers.  [details] is declared a
    string, yet it holds whatever [||] selected. *)
Module ApiError.
Record t := mk {
  message : string;
  code : option string;
  details : json
}.
End ApiError.

Fixpoint member (members : list (string * json)) (name : string) : option json :=
  match members with
  | [] => None
  | (k, v) :: rest => if String.eqb name k then Some v else member rest name
  end.

(** [error.response?.data?.message]; [None] is [undefined]. *)
Definition response_message (error : AxiosError.t) : option json :=
  match AxiosError.response error with
  | None => None
  | Some r =>
      match AxiosResponse.data r with
      | Some (JObject members) => member members "message"
      | _ => None
      end
  end.

Definition truthy (j : json) : bool :=
  match j with
  | JNull => false
  | JBool b => b
  | JNumber q => negb (Qeq_bool q 0)
  | JString s => negb (String.eqb s "")
  | JArray _ | JObject _ => true
  end.

(** [a || b] *)
Definition js_or (a : option json) (b : json) : json :=
  match a with
  | Some j => if truthy j then j else b
  | None => b
  end.

(** The value caught by [catch (error)]. *)
Inductive Caught :=
| IsAxiosError (error : AxiosError.t)
| NotAxiosError.

(** How [await axios.get(url)] settles; a fulfilled request carries
    [response.data]. *)
Inductive Settled (D : Type) :=
| Fulfilled (data : D)
| Rejected (reason : Caught).
Arguments Fulfilled {D} data.
Arguments Rejected {D} reason.

(** What a [queryFn] throws: the normalised [ApiError] or a plain [Error]. *)
Inductive QueryError :=
| ApiErr (e : ApiError.t)
| JsError (message : string).

Inductive QueryFnResult (D : Type) :=
| Returns (data : D)
| Throws (e : QueryError).
Arguments Returns {D} data.
Arguments Throws {D} e.

Section Fetcher.
Context {D : Type} (axios_get : string -> Settled D).

Definition assetsQueryFn (network : Network) : QueryFnResult D :=
  match axios_get (API_ENDPOINTS network +:+ "/api/v1/market/assets") with
  | Fulfilled data => Returns data
  | Rejected (IsAxiosError error) =>
      Throws (ApiErr
        {| ApiError.message := "Failed to fetch assets";
           ApiError.code := AxiosError.code error;
           ApiError.details :=
             js_or (response_message error) (JString (AxiosError.message error)) |})
  | Rejected NotAxiosError =>
      Throws (JsError "An unexpected error occurred while fetching assets")
  end.

Definition pairsQueryFn (network : Network) : QueryFnResult D :=
  match axios_get (API_ENDPOINTS network +:+ "/api/v1/market/pairs") with
  | Fulfilled data => Returns data
  | Rejected (IsAxiosError error) =>
      Throws (ApiErr
        {| ApiError.message := "Failed to fetch trading pairs";
           ApiError.code := AxiosError.code error;
           ApiError.details :=
             js_or (response_message error) (JString (AxiosError.message error)) |})
  | Rejected NotAxiosError =>
      Throws (JsError "An unexpected error occurred while fetching trading pairs")
  end.

End Fetcher.

(** "The server provided the message [m]": a response arrived, its body is
    an object, and the [message] member of the body is [m], which is not
    empty (nor null, false or zero). *)
Definition server_message (error : AxiosError.t) (m : json) : Prop :=
  exists r members,
    AxiosError.response error = Some r
    /\ AxiosResponse.data r = Some (JObject members)
    /\ member members "message" = Some m
    /\ truthy m = true.

(** The claim's reading of [details]: the message the server provided,
    or the raw error text when it provided none. *)
Definition details_as_claimed (error : AxiosError.t) (details : json) : Prop :=
  (forall m, server_message error m -> details = m)
  /\ ((forall m, ~ server_message error m) ->
      details = JString (AxiosError.message error)).

(** What [useQuery] hands to the component: [{ data, isLoading, error }]. *)
Module Query.
Record t (D : Type) := mk {
  data : option D;
  isLoading : bool;
  error : option QueryError
}.
Arguments mk {D} _ _ _.
Arguments data {D} _.
Arguments isLoading {D} _.
Arguments error {D} _.
End Query.

(** A fetch is outstanding or its [queryFn] has finished. *)
Inductive FetchOutcome (D : Type) :=
| Outstanding
| Finished (r : QueryFnResult D).
Arguments Outstanding {D}.
Arguments Finished {D} r.

Definition useQuery {D} (o : FetchOutcome D) : Query.t D :=
  match o with
  | Outstanding => Query.mk None true None
  | Finished (Returns d) => Query.mk (Some d) false None
  | Finished (Throws e) => Query.mk None false (Some e)
  end.

(** ** Arrays as objects in a store

    An array value is a reference; the store maps every allocated reference
    to the current elements.  [filter] and the spread [[...data]] allocate
    a new array, [sort] rewrites the array it is called on and returns the
    same reference.  A computation that dereferences a reference that was
    never allocated has no result. *)

Abbreviation loc := positive.
Abbreviation store T := (gmap loc (list T)).

Definition ST (T A : Type) : Type := store T -> option (A * store T).

Section Store.
Context {T : Type}.

Definition st_ret {A} (a : A) : ST T A := fun σ => Some (a, σ).

Definition st_bind {A B} (m : ST T A) (f : A -> ST T B) : ST T B :=
  fun σ => match m σ with
           | Some (a, σ') => f a σ'
           | None => None
           end.

Definition array_new (elems : list T) : ST T loc :=
  fun σ => let r := fresh (dom σ) in Some (r, <[r := elems]> σ).

Definition array_read (r : loc) : ST T (list T) :=
  fun σ => match σ !! r with
           | Some elems => Some (elems, σ)
           | None => None
           end.

Definition array_write (r : loc) (elems : list T) : ST T unit :=
  fun σ => match σ !! r with
           | Some _ => Some (tt, <[r := elems]> σ)
           | None => None
           end.

End Store.

Notation "'let*' x ':=' m 'in' k" := (st_bind m (fun x => k))
  (at level 10, x name, m at level 100, k at level 200).

Section StoreArrays.
Context {T : Type}.

(** [arr.filter(callback)] *)
Definition Array_filter_st (callback : T -> bool) (arr : loc) : ST T loc :=
  let* elems := array_read arr in
  array_new (List.filter callback elems).

(** [[...arr]] *)
Definition spread_st (arr : loc) : ST T loc :=
  let* elems := array_read arr in
  array_new elems.

(** [arr.sort(compareFn)]: sorts [arr] in place and returns [arr]. *)
Definition Array_sort_st (compareFn : T -> T -> Z) (arr : loc) : ST T loc :=
  let* elems := array_read arr in
  let* written := array_write arr (Array_sort compareFn elems) in
  st_ret arr.

(** [arr.length] *)
Definition Array_length_st (arr : loc) : ST T nat :=
  let* elems := array_read arr in
  st_ret (length elems).

(** [return [...data].sort((a, b) => ...)] *)
Definition sortData_st (get : T -> string -> value)
    (data : loc) (key : string) (direction : Direction) : ST T loc :=
  let* copy := spread_st data in
  Array_sort_st (compareFn get key direction) copy.

End StoreArrays.

(** [pairsData] is undefined or holds the reference of its [pairs] array;
    [|| []] allocates the empty array literal. *)
Definition filteredPairs_st (pairsData : option loc) (pairFilter : string)
  : ST Pair.t loc :=
  match pairsData with
  | Some arr => Array_filter_st (pair_matches pairFilter) arr
  | None => array_new []
  end.

Definition sortedPairs_st (pairsData : option loc) (pairFilter : string)
    (sortConfig : option SortConfig) : ST Pair.t loc :=
  let* filtered := filteredPairs_st pairsData pairFilter in
  match sortConfig with
  | Some c =>
      let* n := Array_length_st filtered in
      if (0 <? n)%nat
      then sortData_st pair_get filtered (key c) (direction c)
      else st_ret filtered
  | None => st_ret filtered
  end.

(** The store [σ'] keeps every array of [σ] as it was. *)
Definition preserves {T} (σ σ' : store T) : Prop :=
  forall l : loc, is_Some (σ !! l) -> σ' !! l = σ !! l.

(** ** What the two page sections show *)

(** The assets card: a spinner in the header, an error alert, the table. *)
Record AssetsSection := {
  assets_spinner : bool;
  assets_alert : option string;
  assets_rows : list Asset.t
}.

(** One [PairCard]: the pair and the two assets looked up for it. *)
Record PairCardView := {
  card_pair : Pair.t;
  baseAsset : option Asset.t;
  quoteAsset : option Asset.t
}.

(** The pairs section shows exactly one of: the spinner, the alert, the
    grid of cards (with the "no trading pairs found" notice when empty). *)
Inductive PairsSection :=
| PairsSpinner
| PairsAlert (text : string)
| PairsGrid (cards : list PairCardView) (emptyNotice : bool).

Record Page := {
  assetsSection : AssetsSection;
  pairsSection : PairsSection
}.

Definition error_message (e : QueryError) : string :=
  match e with
  | ApiErr a => ApiError.message a
  | JsError m => m
  end.

(** [assetsData?.assets.reduce((acc, asset) => { acc[asset.asset_id] = asset;
    return acc }, {}) || {}] *)
Definition assets_by_id (assetsData : option AssetsData) : gmap string Asset.t :=
  match assetsData with
  | Some d => foldl (fun acc asset => <[Asset.asset_id asset := asset]> acc) ∅ (assets d)
  | None => ∅
  end.

Definition PairCard (pair : Pair.t) (assets : gmap string Asset.t) : PairCardView :=
  {| card_pair := pair;
     baseAsset :=
       if String.eqb (Pair.base_asset_id pair) "BTC" then None
       else assets !! Pair.base_asset_id pair;
     quoteAsset :=
       if String.eqb (Pair.quote_asset_id pair) "BTC" then None
       else assets !! Pair.quote_asset_id pair |}.

(** The part of [Registry]'s markup that depends on the two queries. *)
Definition Registry (assetsQuery : Query.t AssetsData) (pairsQuery : Query.t PairsData)
    (pairFilter : string) (sortConfig : option SortConfig) : Page :=
  let assetsData := Query.data assetsQuery in
  let isLoadingAssets := Query.isLoading assetsQuery in
  let assetsError := Query.error assetsQuery in
  let pairsData := Query.data pairsQuery in
  let isLoadingPairs := Query.isLoading pairsQuery in
  let pairsError := Query.error pairsQuery in
  let sorted := sortedPairs pairsData pairFilter sortConfig in
  {| assetsSection :=
       {| assets_spinner := isLoadingAssets;
          assets_alert :=
            match assetsError with
            | Some e =>
                Some (if String.eqb (error_message e) ""
                      then "An unexpected error occurred"
                      else error_message e)
            | None => None
            end;
          assets_rows :=
            match assetsData with
            | Some d => assets d
            | None => []
            end |};
     pairsSection :=
       if isLoadingPairs || isLoadingAssets then PairsSpinner
       else if bool_decide (is_Some pairsError) || bool_decide (is_Some assetsError)
       then PairsAlert "Failed to load data. Please try again later."
       else PairsGrid
              (List.map (fun pair => PairCard pair (assets_by_id assetsData)) sorted)
              (length sorted =? 0)%nat |}.

(** ** The earlier layout of the page

    Two of the repository's copies of the component lay the page out
    differently: the assets card has no alert, and the pairs card looks at
    the pairs query alone. *)
Module Earlier.

Record AssetsCard := {
  assets_spinner : bool;
  assets_rows : list Asset.t
}.

Inductive PairsBody :=
| SkeletonRows
| NoPairsFound
| PairRows (rows : list Pair.t).

Inductive PairsContent :=
| ErrorAlert (message : string) (details : option json)
| PairsTable (body : PairsBody).

Record PairsCard := {
  pairs_spinner : bool;
  pairs_content : PairsContent
}.

Record Page := {
  assetsCard : AssetsCard;
  pairsCard : PairsCard
}.

(** [(pairsError as ApiError).details && <span>{...details}</span>]: the
    value that becomes the child of the details line, whatever it is; what
    React does with it is [earlier_mount]. *)
Definition shown_details (e : QueryError) : option json :=
  match e with
  | ApiErr a => if truthy (ApiError.details a) then Some (ApiError.details a) else None
  | JsError _ => None
  end.

Definition App (assetsQuery : Query.t AssetsData) (pairsQuery : Query.t PairsData)
    (pairFilter : string) (sortConfig : option SortConfig) : Page :=
  let sorted := sortedPairs (Query.data pairsQuery) pairFilter sortConfig in
  {| assetsCard :=
       {| assets_spinner := Query.isLoading assetsQuery;
          assets_rows :=
            match Query.data assetsQuery with
            | Some d => assets d
            | None => []
            end |};
     pairsCard :=
       {| pairs_spinner := Query.isLoading pairsQuery;
          pairs_content :=
            match Query.error pairsQuery with
            | Some e => ErrorAlert (error_message e) (shown_details e)
            | None =>
                PairsTable
                  (if Query.isLoading pairsQuery then SkeletonRows
                   else if (length sorted =? 0)%nat then NoPairsFound
                   else PairRows sorted)
            end |} |}.

End Earlier.

(** ** The rest of the component

    The asset filter as the claim reads the pair filter. *)
Definition asset_matching (t : string) (asset : Asset.t) : Prop :=
  substring_of (toLowerCase t) (toLowerCase (Asset.ticker asset))
  \/ substring_of (toLowerCase t) (toLowerCase (Asset.name asset))
  \/ substring_of (toLowerCase t) (toLowerCase (Asset.asset_id asset)).

(** [handleSort]: the updater handed to [setSortConfig]. *)
Definition handleSort (key : string) (current : option SortConfig)
  : option SortConfig :=
  Some {| key := key;
          direction :=
            match current with
            | Some {| key := current_key; direction := current_direction |} =>
                if String.eqb current_key key
                   && match current_direction with asc => true | desc => false end
                then desc else asc
            | None => asc
            end |}.

(** [handleKeySort]: whether [preventDefault] was called, and the new
    configuration. *)
Definition handleKeySort (e_key : string) (key : string)
    (current : option SortConfig) : bool * option SortConfig :=
  if String.eqb e_key "Enter" || String.eqb e_key " "
  then (true, handleSort key current)
  else (false, current).

(** [s.slice(start, end)]: negative positions count from the end, all
    positions are clamped to the string, [None] is an omitted [end]. *)
Definition slice_position (len : Z) (pos : Z) : Z :=
  if (pos <? 0)%Z then Z.max (len + pos) 0 else Z.min pos len.

Definition String_slice (s : string) (start : Z) (end_ : option Z) : string :=
  let len := Z.of_nat (String.length s) in
  let from := slice_position len start in
  let to := match end_ with
            | Some e => slice_position len e
            | None => len
            end in
  String.substring (Z.to_nat from) (Z.to_nat (Z.max (to - from) 0)) s.

(** What an [AssetId] shows, and what its button (there is one when
    [showTooltip] is set) hands to [handleCopy]. *)
Inductive IdText :=
| WholeId (text : string)
| TruncatedId (first last : string).

Record AssetIdView := {
  id_text : IdText;
  copy_text : option string
}.

Definition AssetId (id : string) (showTooltip : bool) : AssetIdView :=
  if String.eqb id "BTC"
  then {| id_text := WholeId "BTC";
          copy_text := if showTooltip then Some "BTC" else None |}
  else {| id_text := TruncatedId (String_slice id 0 (Some 8)) (String_slice id (-8) None);
          copy_text := if showTooltip then Some id else None |}.

(** The text of the visible spans, in order. *)
Definition id_text_shown (t : IdText) : string :=
  match t with
  | WholeId text => text
  | TruncatedId first last => first +:+ "..." +:+ last
  end.

(** [baseAsset?.name || pair.base_asset] *)
Definition name_or (asset : option Asset.t) (symbol : string) : string :=
  match asset with
  | Some a => if String.eqb (Asset.name a) "" then symbol else Asset.name a
  | None => symbol
  end.

(** The subtitle of a card: the two names around the slash. *)
Definition card_names (card : PairCardView) : string * string :=
  (name_or (baseAsset card) (Pair.base_asset (card_pair card)),
   name_or (quoteAsset card) (Pair.quote_asset (card_pair card))).

(** ** Copy to clipboard

    The state a copy handler works on: the system clipboard, the "copied"
    indicator, the timeouts not yet fired, the errors written to the
    console.  [handleCopy] of [AssetId] keeps a boolean indicator,
    [copyToClipboard] of the earlier layout the copied text. *)
Module Copy.

Record t (I : Type) := mk {
  clipboard : option string;
  indicator : I;
  timeouts : nat;
  logged : nat
}.
Arguments mk {I} _ _ _ _.
Arguments clipboard {I} _.
Arguments indicator {I} _.
Arguments timeouts {I} _.
Arguments logged {I} _.

(** What happens to a handler: [await navigator.clipboard.writeText(text)]
    returns or throws, or one of the timeouts fires. *)
Inductive event :=
| Written (text : string)
| Refused (text : string)
| TimeoutFired.

End Copy.

Section CopyHandler.
Context {I : Type} (mark : string -> I) (clear : I).

(** The body of the handler after [await], and the callback of
    [setTimeout]; a timeout fires only when one is outstanding. *)
Definition copy_step (s : Copy.t I) (e : Copy.event) : option (Copy.t I) :=
  match e with
  | Copy.Written text =>
      Some (Copy.mk (Some text) (mark text) (S (Copy.timeouts s)) (Copy.logged s))
  | Copy.Refused _ =>
      Some (Copy.mk (Copy.clipboard s) (Copy.indicator s) (Copy.timeouts s)
                    (S (Copy.logged s)))
  | Copy.TimeoutFired =>
      match Copy.timeouts s with
      | O => None
      | S n => Some (Copy.mk (Copy.clipboard s) clear n (Copy.logged s))
      end
  end.

End CopyHandler.

(** A handler going through a sequence of events. *)
Fixpoint copy_run {S} (step : S -> Copy.event -> option S)
    (s : S) (events : list Copy.event) : option S :=
  match events with
  | [] => Some s
  | e :: rest =>
      match step s e with
      | Some s' => copy_run step s' rest
      | None => None
      end
  end.

(** [handleCopy]: [setCopied(true)], later [setCopied(false)]. *)
Definition handleCopy : Copy.t bool -> Copy.event -> option (Copy.t bool) :=
  copy_step (fun _ => true) false.

(** [copyToClipboard]: [setCopiedId(text)], later [setCopiedId(null)]. *)
Definition copyToClipboard
  : Copy.t (option string) -> Copy.event -> option (Copy.t (option string)) :=
  copy_step Some None.

(** The text of the last successful write among [events], if any. *)
Fixpoint last_written (events : list Copy.event) : option string :=
  match events with
  | [] => None
  | e :: rest =>
      match last_written rest with
      | Some text => Some text
      | None => match e with
                | Copy.Written text => Some text
                | _ => None
                end
      end
  end.

(** Counting the events of one kind. *)
Fixpoint count_events (p : Copy.event -> bool) (events : list Copy.event) : nat :=
  match events with
  | [] => O
  | e :: rest => ((if p e then 1 else 0) + count_events p rest)%nat
  end.

Definition is_written (e : Copy.event) : bool :=
  match e with Copy.Written _ => true | _ => false end.

Definition is_refused (e : Copy.event) : bool :=
  match e with Copy.Refused _ => true | _ => false end.

Definition is_timeout (e : Copy.event) : bool :=
  match e with Copy.TimeoutFired => true | _ => false end.

(** No two elements of the list are tied. *)
Definition untied {T} (compareFn : T -> T -> Z) (l : list T) : Prop :=
  ForallOrdPairs (fun a b => tied compareFn a b = false) l.

(** ** Evaluation that can throw

    Nothing checks a response body against the interfaces: the component
    reads [pairsData?.pairs.filter(...)], [assetsData?.assets.filter(...)]
    from whatever the request returned.  What such a read meets is one of
    four things: no data ([undefined]: the request is outstanding or has
    failed), the body [null], a body that holds no array under the name
    read (no such member, or a member that is not an array, or a body that
    is a string, a number, a boolean or an array), or a body of the
    declared shape. *)
Inductive thrown := TypeError | InvalidChild.

Inductive outcome (A : Type) :=
| Value (a : A)
| Throw (e : thrown).
Arguments Value {A} a.
Arguments Throw {A} e.

Inductive Fetched (D : Type) :=
| NoData
| NullBody
| WithoutArray
| Shaped (d : D).
Arguments NoData {D}.
Arguments NullBody {D}.
Arguments WithoutArray {D}.
Arguments Shaped {D} d.

(** The class of a parsed body that has no array under [name]; a body
    that has one is of class [Shaped d] for the records [d] it lists. *)
Definition body_class {D} (name : string) (body : json) : option (Fetched D) :=
  match body with
  | JNull => Some NullBody
  | JObject members =>
      match member members name with
      | Some (JArray _) => None
      | _ => Some WithoutArray
      end
  | _ => Some WithoutArray
  end.

(** [pairsData?.pairs.filter(...) || []]: on [undefined] and on [null] the
    optional chain stops and yields [undefined], so [|| []] applies; on any
    other body [.pairs] is read and [.filter] is called on it, which throws
    a TypeError unless it is an array. *)
Definition filteredPairs_eval (pairsData : Fetched PairsData) (pairFilter : string)
  : outcome (list Pair.t) :=
  match pairsData with
  | NoData | NullBody => Value []
  | WithoutArray => Throw TypeError
  | Shaped d => Value (List.filter (pair_matches pairFilter) (pairs d))
  end.

Definition sortedPairs_eval (pairsData : Fetched PairsData) (pairFilter : string)
    (sortConfig : option SortConfig) : outcome (list Pair.t) :=
  match filteredPairs_eval pairsData pairFilter with
  | Throw e => Throw e
  | Value filtered =>
      Value match sortConfig with
            | Some c =>
                if (0 <? length filtered)%nat
                then sortData pair_get filtered (key c) (direction c)
                else filtered
            | None => filtered
            end
  end.

Definition filteredAssets_eval (assetsData : Fetched AssetsData) (assetFilter : string)
  : outcome (list Asset.t) :=
  match assetsData with
  | NoData | NullBody => Value []
  | WithoutArray => Throw TypeError
  | Shaped d => Value (List.filter (asset_matches assetFilter) (assets d))
  end.

Definition sortedAssets_eval (assetsData : Fetched AssetsData) (assetFilter : string)
    (sortConfig : option SortConfig) : outcome (list Asset.t) :=
  match filteredAssets_eval assetsData assetFilter with
  | Throw e => Throw e
  | Value filtered =>
      Value match sortConfig with
            | Some c =>
                if (0 <? length filtered)%nat
                then sortData asset_get filtered (key c) (direction c)
                else filtered
            | None => filtered
            end
  end.

(** The typed reading of fetched data, where there is one. *)
Definition typed_data {D} (data : Fetched D) : option (option D) :=
  match data with
  | NoData | NullBody => Some None
  | WithoutArray => None
  | Shaped d => Some (Some d)
  end.

(** What React does with a value placed in the markup as a child: text and
    numbers are shown, booleans and [null] are skipped, the items of an
    array are children themselves, and a plain object is refused ("Objects
    are not valid as a React child"), which unmounts the page. *)
Fixpoint valid_child (j : json) : bool :=
  match j with
  | JObject _ => false
  | JArray items => forallb valid_child items
  | _ => true
  end.

(** Mounting the earlier layout: [Earlier.App] is the markup the component
    returns; the only value in it that the server chooses freely is the
    details line of the alert, [{(pairsError as ApiError).details}]. *)
Definition earlier_mount (page : Earlier.Page) : outcome Earlier.Page :=
  match Earlier.pairs_content (Earlier.pairsCard page) with
  | Earlier.ErrorAlert _ (Some details) =>
      if valid_child details then Value page else Throw InvalidChild
  | _ => Value page
  end.

(** ** Sample data *)

Definition btc_usd : Pair.t :=
  Pair.mk "pair-1" "BTC" "BTC" "USD" "rgb:usd-2a51" true 0.001 10 2 8.

Definition eth_usd : Pair.t :=
  Pair.mk "pair-2" "ETH" "rgb:eth-77c0" "USD" "rgb:usd-2a51" true 0.01 500 2 6.

(** [btc_usd] again under another id, inactive, other sizes and precisions. *)
Definition btc_usd_inactive : Pair.t :=
  Pair.mk "pair-9" "BTC" "BTC" "USD" "rgb:usd-2a51" false 5 7 0 0.

Definition usd_asset : Asset.t :=
  Asset.mk "rgb:usd-2a51" "RGB20" "USD" "Dollar" 2 1000000 true
    (Balance.mk 0 0 0 0 0).

(** Three bare objects, of which the middle one has no property [k]. *)
Definition some_with_k : list (list (string * value)) :=
  [ [("k", VNumber 2)]; []; [("k", VNumber 1)] ].

(** An HTTP 500 answer with the body [{"message":"db down"}]. *)
Definition http_500_db_down : AxiosError.t :=
  AxiosError.mk (Some "ERR_BAD_RESPONSE") "Request failed with status code 500"
    (Some (AxiosResponse.mk 500 (Some (JObject [("message", JString "db down")])))).

(** An HTTP 500 answer with the body [{"message":{"reason":"db down"}}]. *)
Definition http_500_object_message : AxiosError.t :=
  AxiosError.mk (Some "ERR_BAD_RESPONSE") "Request failed with status code 500"
    (Some (AxiosResponse.mk 500
       (Some (JObject [("message", JObject [("reason", JString "db down")])])))).

(** No answer at all. *)
Definition network_error : AxiosError.t :=
  AxiosError.mk (Some "ERR_NETWORK") "Network Error" None.

Definition assets_ok : Query.t AssetsData :=
  useQuery (Finished (Returns {| assets := [usd_asset] |})).

Definition assets_failed : Query.t AssetsData :=
  useQuery (Finished
    (assetsQueryFn (fun _ => Rejected (IsAxiosError http_500_db_down)) signet)).

Definition pairs_ok : Query.t PairsData :=
  useQuery (Finished (Returns {| pairs := [btc_usd; eth_usd] |})).

Definition usd_asset_renamed : Asset.t :=
  Asset.mk "rgb:usd-2a51" "RGB20" "USD" "US Dollar" 2 1000000 true
    (Balance.mk 0 0 0 0 0).

Definition usd_btc : Pair.t :=
  Pair.mk "pair-3" "USD" "rgb:usd-2a51" "BTC" "BTC" true 1 2 0 0.

Definition long_id : string := "rgb:2dkSTbr-jFhznbPmo-TQafzswCN-av4gTsJjX".

(** * Properties *)

(** ** Strings *)

Lemma append_nil (s : string) : "" +:+ s = s.
Proof. reflexivity. Qed.

Lemma append_cons (c : ascii) (s t : string) :
  String c s +:+ t = String c (s +:+ t).
Proof. reflexivity. Qed.

Lemma prefix_append (t s : string) :
  String.prefix t s = true <-> exists post, s = t +:+ post.
Proof.
  revert s; induction t as [|c t IH]; intros s; simpl.
  - destruct s; split; eauto.
  - destruct s as [|d s]; simpl.
    + split; [discriminate | intros [post H]; discriminate].
    + destruct (ascii_dec c d) as [->|Hne].
      * rewrite IH. split; intros [post H]; exists post;
          rewrite append_cons in *; congruence.
      * split; [discriminate | intros [post H]].
        rewrite append_cons in H. congruence.
Qed.

Lemma includes_substring_of (s t : string) :
  includes s t = true <-> substring_of t s.
Proof.
  unfold substring_of. induction s as [|c s IH]; cbn [includes].
  - rewrite orb_false_r, prefix_append. split.
    + intros [post H]. exists "", post. exact H.
    + intros ([|d pre] & post & H); [eauto | discriminate].
  - rewrite orb_true_iff, prefix_append, IH. split.
    + intros [[post H] | (pre & post & H)].
      * exists "", post. exact H.
      * exists (String c pre), post. rewrite append_cons. congruence.
    + intros ([|d pre] & post & H).
      * left. eauto.
      * right. exists pre, post. rewrite append_cons in H. congruence.
Qed.

Lemma includes_empty (s : string) : includes s "" = true.
Proof. destruct s; reflexivity. Qed.

Lemma pair_matches_matching (t : string) (pair : Pair.t) :
  pair_matches t pair = true <-> pair_matching t pair.
Proof.
  unfold pair_matches, pair_matching.
  rewrite !orb_true_iff, !includes_substring_of. tauto.
Qed.

(** ** Filtering *)

Lemma filter_sublist {A} (f : A -> bool) (l : list A) : sublist (List.filter f l) l.
Proof.
  induction l as [|x l IH]; simpl; [constructor|].
  destruct (f x); [by apply sublist_skip | by apply sublist_cons].
Qed.

Lemma filter_all {A} (f : A -> bool) (l : list A) :
  (forall x, In x l -> f x = true) -> List.filter f l = l.
Proof.
  induction l as [|x l IH]; simpl; intros H; [done|].
  rewrite (H x) by auto. f_equal. apply IH. auto.
Qed.

Lemma filter_filter_same {A} (f : A -> bool) (l : list A) :
  List.filter f (List.filter f l) = List.filter f l.
Proof.
  apply filter_all. intros x Hx. apply List.filter_In in Hx. tauto.
Qed.

Lemma filter_decide {A} (f : A -> bool) (P : A -> Prop)
    (dec : forall x, Decision (P x)) (l : list A) :
  (forall x, f x = true <-> P x) -> List.filter f l = filter P l.
Proof.
  intros Hf. induction l as [|x l IH]; [done|].
  simpl. rewrite filter_cons, IH.
  destruct (decide (P x)) as [HP|HP].
  - apply Hf in HP. by rewrite HP.
  - destruct (f x) eqn:E; [|done]. apply Hf in E. contradiction.
Qed.

(** C1: the pair filter keeps exactly the pairs one of whose three
    lowercase strings (["base/quote"], base id, quote id) contains the
    lowercase filter text, each as often and in the order it occurs in [P]:
    the result is the sub-list of the matching pairs of [P]. *)
Theorem filteredPairs_exactly_matching (P : list Pair.t) (t : string) :
  sublist (filteredPairs (Some {| pairs := P |}) t) P
  /\ (forall pair, In pair (filteredPairs (Some {| pairs := P |}) t)
                   <-> In pair P /\ pair_matching t pair)
  /\ (forall dec : (forall pair, Decision (pair_matching t pair)),
        filteredPairs (Some {| pairs := P |}) t = filter (pair_matching t) P).
Proof.
  simpl. split; [apply filter_sublist|]. split.
  - intros pair. rewrite List.filter_In, pair_matches_matching. tauto.
  - intros dec. apply filter_decide. intros pair. apply pair_matches_matching.
Qed.

(** C6: the empty filter text keeps every pair, in order. *)
Theorem filteredPairs_empty_text (P : list Pair.t) :
  filteredPairs (Some {| pairs := P |}) "" = P.
Proof.
  simpl. apply filter_all. intros pair _.
  unfold pair_matches. simpl. by rewrite includes_empty.
Qed.

(** C10: whether the filter keeps a pair is decided by its base_asset,
    quote_asset, base_asset_id and quote_asset_id alone: two pairs that
    agree on these four are both kept or both dropped. *)
Theorem pair_matches_four_fields (t : string) (p q : Pair.t) :
  Pair.base_asset p = Pair.base_asset q ->
  Pair.quote_asset p = Pair.quote_asset q ->
  Pair.base_asset_id p = Pair.base_asset_id q ->
  Pair.quote_asset_id p = Pair.quote_asset_id q ->
  pair_matches t p = pair_matches t q
  /\ (filteredPairs (Some {| pairs := [p] |}) t = [p]
      <-> filteredPairs (Some {| pairs := [q] |}) t = [q])
  /\ (filteredPairs (Some {| pairs := [p] |}) t = []
      <-> filteredPairs (Some {| pairs := [q] |}) t = []).
Proof.
  intros Hb Hq Hbi Hqi.
  assert (E : pair_matches t p = pair_matches t q).
  { unfold pair_matches. by rewrite Hb, Hq, Hbi, Hqi. }
  split; [exact E|]. simpl. rewrite E.
  destruct (pair_matches t q); split; split; intros H; done.
Qed.

(** ** The relational operators on property values *)

Lemma ascii_compare_refl (c : ascii) : Ascii.compare c c = Eq.
Proof. unfold Ascii.compare. apply N.compare_refl. Qed.

Lemma string_compare_refl (s : string) : String.compare s s = Eq.
Proof.
  induction s as [|c s IH]; simpl; [done|]. by rewrite ascii_compare_refl.
Qed.

Lemma string_compare_not_Gt_trans (a b c : string) :
  String.compare a b <> Gt -> String.compare b c <> Gt -> String.compare a c <> Gt.
Proof.
  revert b c. induction a as [|x a IH]; intros [|y b] [|z c]; simpl; try congruence.
  unfold Ascii.compare.
  destruct (N.compare_spec (N_of_ascii x) (N_of_ascii y)) as [E1|L1|G1];
    destruct (N.compare_spec (N_of_ascii y) (N_of_ascii z)) as [E2|L2|G2];
    destruct (N.compare_spec (N_of_ascii x) (N_of_ascii z)) as [E3|L3|G3];
    try congruence; try lia.
  apply IH.
Qed.

Lemma string_ltb_false (a b : string) :
  String.ltb a b = false <-> String.compare b a <> Gt.
Proof.
  unfold String.ltb. rewrite (String.compare_antisym b a).
  destruct (String.compare a b); simpl; split; congruence.
Qed.

Lemma number_lt_false (p q : Q) : number_lt p q = false <-> (q <= p)%Q.
Proof.
  unfold number_lt.
  destruct (Qcompare_spec p q) as [E|L|G]; split; intros H; try done.
  - rewrite E. apply Qle_refl.
  - exfalso. by apply (Qlt_not_le p q).
  - by apply Qlt_le_weak.
Qed.

Lemma number_lt_asym (p q : Q) : number_lt p q = true -> number_lt q p = false.
Proof.
  unfold number_lt. rewrite <- (Qcompare_antisym p q). by destruct (p ?= q)%Q.
Qed.

Lemma string_ltb_asym (s t : string) : String.ltb s t = true -> String.ltb t s = false.
Proof.
  unfold String.ltb. rewrite (String.compare_antisym t s).
  by destruct (String.compare s t).
Qed.

Lemma js_lt_asym (a b : value) : js_lt a b = true -> js_lt b a = false.
Proof.
  destruct a as [|s|p|x|], b as [|t|q|y|]; simpl; try done;
    auto using number_lt_asym, string_ltb_asym.
Qed.

Lemma js_lt_negative_transitive (a b c : value) :
  type_of a = type_of b -> type_of b = type_of c ->
  js_lt a b = false -> js_lt b c = false -> js_lt a c = false.
Proof.
  destruct a as [|s|p|x|], b as [|t|q|y|], c as [|u|r|z|]; simpl; try done.
  - rewrite !string_ltb_false. intros _ _ H1 H2.
    by apply (string_compare_not_Gt_trans u t s).
  - rewrite !number_lt_false. intros _ _ H1 H2. by apply (Qle_trans r q p).
  - by destruct x, y, z.
Qed.

(** ** The comparator of [sortData] *)

Section Comparator.
Context {T : Type} (get : T -> string -> value).

Lemma compareFn_precedes (k : string) (d : Direction) (a b : T) :
  precedes (compareFn get k d) a b <-> in_order d (get a k) (get b k).
Proof.
  unfold precedes, compareFn, in_order, js_gt.
  destruct (js_lt (get a k) (get b k)) eqn:Hlt.
  - rewrite (js_lt_asym _ _ Hlt). by destruct d.
  - destruct (js_lt (get b k) (get a k)) eqn:Hgt; by destruct d.
Qed.

Lemma precedes_total (k : string) (d : Direction) (a b : T) :
  precedes (compareFn get k d) a b \/ precedes (compareFn get k d) b a.
Proof.
  rewrite !compareFn_precedes. unfold in_order, js_gt.
  destruct d.
  - destruct (js_lt (get b k) (get a k)) eqn:H; [right|left]; auto using js_lt_asym.
  - destruct (js_lt (get a k) (get b k)) eqn:H; [right|left]; auto using js_lt_asym.
Qed.

Lemma precedes_transitive (k : string) (d : Direction) (a b c : T) :
  typed_by get ->
  precedes (compareFn get k d) a b -> precedes (compareFn get k d) b c ->
  precedes (compareFn get k d) a c.
Proof.
  intros Hty. rewrite !compareFn_precedes. unfold in_order, js_gt.
  destruct d; intros H1 H2.
  - by apply (js_lt_negative_transitive _ (get b k)).
  - by apply (js_lt_negative_transitive _ (get b k)).
Qed.

End Comparator.

Lemma pair_get_typed : typed_by pair_get.
Proof.
  intros a b k. unfold pair_get, pair_props. cbn [get_property].
  repeat (destruct (String.eqb k _); [reflexivity|]). reflexivity.
Qed.

Lemma asset_get_typed : typed_by asset_get.
Proof.
  intros a b k. unfold asset_get, asset_props. cbn [get_property].
  repeat (destruct (String.eqb k _); [reflexivity|]). reflexivity.
Qed.

(** ** [Array.prototype.sort] *)

Section ArraySort.
Context {T : Type} (cmp : T -> T -> Z).

Lemma sort_insert_perm (x : T) (l : list T) :
  Permutation (sort_insert cmp x l) (x :: l).
Proof.
  induction l as [|y l IH]; simpl; [done|].
  destruct (cmp x y <=? 0)%Z; [done|].
  rewrite IH. apply perm_swap.
Qed.

Lemma Array_sort_perm (l : list T) : Permutation (Array_sort cmp l) l.
Proof.
  induction l as [|x l IH]; simpl; [done|].
  rewrite sort_insert_perm. by constructor.
Qed.

Lemma Array_sort_length (l : list T) : length (Array_sort cmp l) = length l.
Proof. apply Permutation_length, Array_sort_perm. Qed.

(** An array that is already in order is left as it is: the sort is stable. *)
Lemma Array_sort_fixed (l : list T) :
  Sorted (precedes cmp) l -> Array_sort cmp l = l.
Proof.
  induction 1 as [|x l Hs IH Hhd]; simpl; [done|].
  rewrite IH. destruct Hhd as [|y l Hxy]; simpl; [done|].
  unfold precedes in Hxy. by rewrite Hxy.
Qed.

Hypothesis total : forall a b, precedes cmp a b \/ precedes cmp b a.
Hypothesis transitive : forall a b c,
  precedes cmp a b -> precedes cmp b c -> precedes cmp a c.

Lemma sort_insert_sorted (x : T) (l : list T) :
  StronglySorted (precedes cmp) l ->
  StronglySorted (precedes cmp) (sort_insert cmp x l).
Proof.
  induction 1 as [|y l Hs IH Hall]; simpl.
  - repeat constructor.
  - destruct (cmp x y <=? 0)%Z eqn:Hxy.
    + constructor; [by constructor|].
      constructor; [exact Hxy|].
      eapply Forall_impl; [exact Hall|]. intros z Hz. by apply (transitive x y z).
    + constructor; [exact IH|].
      rewrite sort_insert_perm. constructor; [|exact Hall].
      destruct (total x y) as [H|H]; [|exact H].
      unfold precedes in H. congruence.
Qed.

Lemma Array_sort_sorted (l : list T) :
  StronglySorted (precedes cmp) (Array_sort cmp l).
Proof.
  induction l as [|x l IH]; simpl; [constructor|].
  by apply sort_insert_sorted.
Qed.

Lemma Array_sort_idempotent (l : list T) :
  Array_sort cmp (Array_sort cmp l) = Array_sort cmp l.
Proof. apply Array_sort_fixed, StronglySorted_Sorted, Array_sort_sorted. Qed.

(** Ties: the comparator does not decide between [a] and [b]. *)
Lemma tied_precedes (a b : T) :
  tied cmp a b = true <-> precedes cmp a b /\ precedes cmp b a.
Proof. unfold tied, precedes. apply andb_true_iff. Qed.

Lemma tied_refl (a : T) : tied cmp a a = true.
Proof. apply tied_precedes. by destruct (total a a). Qed.

Lemma sort_insert_keeps_ties (z x : T) (l : list T) :
  List.filter (tied cmp z) (sort_insert cmp x l)
  = List.filter (tied cmp z) (x :: l).
Proof.
  induction l as [|y l IH]; [done|]. cbn [sort_insert].
  destruct (cmp x y <=? 0)%Z eqn:Hxy; [done|].
  cbn [List.filter] in *. rewrite IH.
  destruct (tied cmp z y) eqn:Hy, (tied cmp z x) eqn:Hx; try done.
  apply tied_precedes in Hy as [Hzy Hyz], Hx as [Hzx Hxz].
  assert (H : precedes cmp x y) by (by apply (transitive x z y)).
  unfold precedes in H. congruence.
Qed.

(** The sort is stable: elements between which the comparator does not
    decide stay in their original order. *)
Lemma Array_sort_keeps_ties (l : list T) : keeps_ties cmp l (Array_sort cmp l).
Proof.
  intros z. induction l as [|x l IH]; [done|]. cbn [Array_sort].
  rewrite sort_insert_keeps_ties. cbn [List.filter]. by rewrite IH.
Qed.

(** An ordered array is fixed by the order of its ties. *)
Lemma sorted_ties_unique (l1 l2 : list T) :
  StronglySorted (precedes cmp) l1 -> StronglySorted (precedes cmp) l2 ->
  (forall z, List.filter (tied cmp z) l1 = List.filter (tied cmp z) l2) ->
  l1 = l2.
Proof.
  intros Hs1. revert l2.
  induction Hs1 as [|x l1 Hs1 IH Hall1]; intros l2 Hs2 Hties.
  - destruct l2 as [|y l2]; [done|].
    specialize (Hties y). cbn [List.filter] in Hties. by rewrite tied_refl in Hties.
  - destruct Hs2 as [|y l2 Hs2 Hall2].
    + specialize (Hties x). cbn [List.filter] in Hties. by rewrite tied_refl in Hties.
    + assert (Hxy : precedes cmp x y).
      { assert (Hin : In y (List.filter (tied cmp y) (x :: l1))).
        { rewrite Hties. cbn [List.filter]. rewrite tied_refl. by left. }
        apply List.filter_In in Hin as [[<-|Hin] _].
        - by destruct (total x x).
        - rewrite List.Forall_forall in Hall1. by apply Hall1. }
      assert (Hyx : precedes cmp y x).
      { assert (Hin : In x (List.filter (tied cmp x) (y :: l2))).
        { rewrite <- Hties. cbn [List.filter]. rewrite tied_refl. by left. }
        apply List.filter_In in Hin as [[<-|Hin] _].
        - by destruct (total y y).
        - rewrite List.Forall_forall in Hall2. by apply Hall2. }
      assert (Heq : x = y).
      { specialize (Hties x). cbn [List.filter] in Hties.
        rewrite tied_refl in Hties.
        assert (Ht : tied cmp x y = true) by (by apply tied_precedes).
        rewrite Ht in Hties. congruence. }
      subst y. f_equal. apply IH; [exact Hs2|].
      intros z. specialize (Hties z). cbn [List.filter] in Hties.
      destruct (tied cmp z x); congruence.
Qed.

(** Whatever algorithm the engine runs: an ordered, stable rearrangement of
    [l] is the array [Array_sort] computes. *)
Lemma Array_sort_unique (l l' : list T) :
  StronglySorted (precedes cmp) l' -> keeps_ties cmp l l' ->
  l' = Array_sort cmp l.
Proof.
  intros Hs Hties. apply sorted_ties_unique; [exact Hs | apply Array_sort_sorted|].
  intros z. rewrite Hties. symmetry. apply Array_sort_keeps_ties.
Qed.

End ArraySort.

Lemma StronglySorted_map {A B} (R : A -> A -> Prop) (Q : B -> B -> Prop)
    (f : A -> B) (l : list A) :
  (forall a b, R a b -> Q (f a) (f b)) ->
  StronglySorted R l -> StronglySorted Q (List.map f l).
Proof.
  intros HRQ. induction 1 as [|x l Hs IH Hall]; simpl; constructor; [exact IH|].
  apply Forall_map. eapply Forall_impl; [exact Hall|]. intros y. apply HRQ.
Qed.

(** ** [sortData] on the records of an interface *)

Section SortDataTyped.
Context {T : Type} (get : T -> string -> value) (Hty : typed_by get).

Lemma sortData_perm (S : list T) (k : string) (d : Direction) :
  Permutation (sortData get S k d) S.
Proof. apply Array_sort_perm. Qed.

Lemma sortData_monotone (S : list T) (k : string) (d : Direction) :
  monotone d (List.map (fun x => get x k) (sortData get S k d)).
Proof.
  assert (H : StronglySorted (in_order d)
                (List.map (fun x => get x k) (sortData get S k d))).
  { apply (StronglySorted_map (precedes (compareFn get k d))).
    - intros a b. apply compareFn_precedes.
    - apply Array_sort_sorted.
      + apply precedes_total.
      + intros a b c. by apply precedes_transitive. }
  by destruct d.
Qed.

Lemma sortData_idempotent (S : list T) (k : string) (d : Direction) :
  sortData get (sortData get S k d) k d = sortData get S k d.
Proof.
  apply Array_sort_idempotent.
  - apply precedes_total.
  - intros a b c. by apply precedes_transitive.
Qed.

End SortDataTyped.

(** C2: on the pairs and on the assets the pipeline sorts, for every key
    and both directions, [sortData] returns a permutation of its input whose
    values of the key are non-decreasing (asc) or non-increasing (desc). *)
Theorem sortData_sorted_permutation (k : string) (d : Direction) :
  (forall S : list Pair.t,
      Permutation (sortData pair_get S k d) S
      /\ monotone d (List.map (fun p => pair_get p k) (sortData pair_get S k d)))
  /\ (forall S : list Asset.t,
      Permutation (sortData asset_get S k d) S
      /\ monotone d (List.map (fun a => asset_get a k) (sortData asset_get S k d))).
Proof.
  split; intros S; split.
  - apply sortData_perm.
  - apply sortData_monotone, pair_get_typed.
  - apply sortData_perm.
  - apply sortData_monotone, asset_get_typed.
Qed.

(** C5: filtering an already filtered collection with the same text, and
    sorting an already sorted sequence with the same key and direction,
    change nothing. *)
Theorem filter_sort_idempotent (P : list Pair.t) (t k : string) (d : Direction) :
  filteredPairs (Some {| pairs := filteredPairs (Some {| pairs := P |}) t |}) t
    = filteredPairs (Some {| pairs := P |}) t
  /\ sortData pair_get (sortData pair_get P k d) k d = sortData pair_get P k d
  /\ (forall A : list Asset.t,
        filteredAssets (Some {| assets := filteredAssets (Some {| assets := A |}) t |}) t
          = filteredAssets (Some {| assets := A |}) t
        /\ sortData asset_get (sortData asset_get A k d) k d = sortData asset_get A k d)
  /\ (forall c : option SortConfig,
        sortedPairs (Some {| pairs := sortedPairs (Some {| pairs := P |}) t c |}) t c
          = sortedPairs (Some {| pairs := P |}) t c).
Proof.
  split; [apply filter_filter_same|].
  split; [apply sortData_idempotent, pair_get_typed|].
  split.
  - intros A. split; [apply filter_filter_same|].
    apply sortData_idempotent, asset_get_typed.
  - intros [c|]; unfold sortedPairs; simpl; [|apply filter_filter_same].
    set (F := List.filter (pair_matches t) P).
    destruct (0 <? length F)%nat eqn:Hlen.
    + assert (E : List.filter (pair_matches t) (sortData pair_get F (key c) (direction c))
                  = sortData pair_get F (key c) (direction c)).
      { apply filter_all. intros x Hx.
        apply (Permutation_in _ (sortData_perm pair_get F _ _)) in Hx.
        apply List.filter_In in Hx. tauto. }
      rewrite E. unfold sortData at 1. rewrite Array_sort_length, Hlen.
      apply sortData_idempotent, pair_get_typed.
    + unfold F in *. by rewrite filter_filter_same, Hlen.
Qed.

(** C9: when neither [<] nor [>] holds between the key's values of any two
    elements of [S] (the key is absent, or equal, everywhere), [sortData]
    returns [S] in its original order. *)
Theorem sortData_all_ties {T} (get : T -> string -> value)
    (S : list T) (k : string) (d : Direction) :
  (forall a b, In a S -> In b S ->
     js_lt (get a k) (get b k) = false /\ js_gt (get a k) (get b k) = false) ->
  sortData get S k d = S.
Proof.
  intros Hties. apply Array_sort_fixed.
  assert (H : forall l, incl l S -> Sorted (precedes (compareFn get k d)) l).
  { induction l as [|x l IH]; intros Hl; constructor.
    - apply IH. intros y Hy. apply Hl. by right.
    - destruct l as [|y l]; constructor.
      unfold precedes, compareFn.
      destruct (Hties x y) as [-> ->]; [apply Hl; simpl; auto ..|]. done. }
  apply H, incl_refl.
Qed.

(** ** The fetchers *)

Lemma js_or_details (error : AxiosError.t) :
  details_as_claimed error
    (js_or (response_message error) (JString (AxiosError.message error))).
Proof.
  unfold details_as_claimed, server_message, response_message, js_or. split.
  - intros m (r & members & -> & -> & -> & ->). reflexivity.
  - intros Hnone.
    destruct (AxiosError.response error) as [r|] eqn:Hr; [|done].
    destruct (AxiosResponse.data r) as [[| | | | |members]|] eqn:Hd; try done.
    destruct (member members "message") as [m|] eqn:Hm; [|done].
    destruct (truthy m) eqn:Ht; [|done].
    exfalso. apply (Hnone m). exists r, members. auto.
Qed.

(** C3: when [axios.get] fails with an Axios error, the assets fetcher
    throws [{ message: "Failed to fetch assets", code: error.code, details }]
    and the pairs fetcher the same with "Failed to fetch trading pairs";
    [details] is the message of the response body when the body carries
    one, and the raw error text when it does not. *)
Theorem queryFn_normalizes_axios_error {D} (axios_get : string -> Settled D)
    (network : Network) (error : AxiosError.t) :
  (axios_get (API_ENDPOINTS network +:+ "/api/v1/market/assets")
     = Rejected (IsAxiosError error) ->
   exists details,
     assetsQueryFn axios_get network
       = Throws (ApiErr {| ApiError.message := "Failed to fetch assets";
                           ApiError.code := AxiosError.code error;
                           ApiError.details := details |})
     /\ details_as_claimed error details)
  /\ (axios_get (API_ENDPOINTS network +:+ "/api/v1/market/pairs")
        = Rejected (IsAxiosError error) ->
      exists details,
        pairsQueryFn axios_get network
          = Throws (ApiErr {| ApiError.message := "Failed to fetch trading pairs";
                              ApiError.code := AxiosError.code error;
                              ApiError.details := details |})
        /\ details_as_claimed error details).
Proof.
  split; intros Hget; eexists; (split; [|apply js_or_details]).
  - unfold assetsQueryFn. by rewrite Hget.
  - unfold pairsQueryFn. by rewrite Hget.
Qed.

(** ** The store: no array of the caller is rewritten *)

Section StoreFacts.
Context {T : Type}.

Lemma array_new_spec (σ : store T) (elems : list T) :
  exists r σ', array_new elems σ = Some (r, σ')
    /\ σ !! r = None /\ σ' !! r = Some elems /\ preserves σ σ'.
Proof.
  exists (fresh (dom σ)), (<[fresh (dom σ) := elems]> σ).
  assert (Hfresh : σ !! fresh (dom σ) = None).
  { apply not_elem_of_dom, is_fresh. }
  split; [done|]. split; [done|]. split; [by rewrite lookup_insert_eq|].
  intros l [v Hl]. rewrite lookup_insert_ne; [done|]. congruence.
Qed.

Lemma preserves_refl (σ : store T) : preserves σ σ.
Proof. by intros l _. Qed.

Lemma preserves_trans (σ1 σ2 σ3 : store T) :
  preserves σ1 σ2 -> preserves σ2 σ3 -> preserves σ1 σ3.
Proof.
  intros H12 H23 l Hl. rewrite H23, H12; [done..|]. by rewrite H12.
Qed.

Lemma Array_filter_st_spec (σ : store T) (f : T -> bool) (arr : loc) (elems : list T) :
  σ !! arr = Some elems ->
  exists r σ', Array_filter_st f arr σ = Some (r, σ')
    /\ σ !! r = None /\ σ' !! r = Some (List.filter f elems) /\ preserves σ σ'.
Proof.
  intros Harr. unfold Array_filter_st, st_bind, array_read. rewrite Harr.
  apply array_new_spec.
Qed.

Lemma spread_st_spec (σ : store T) (arr : loc) (elems : list T) :
  σ !! arr = Some elems ->
  exists r σ', spread_st arr σ = Some (r, σ')
    /\ σ !! r = None /\ σ' !! r = Some elems /\ preserves σ σ'.
Proof.
  intros Harr. unfold spread_st, st_bind, array_read. rewrite Harr.
  apply array_new_spec.
Qed.

(** [sort] rewrites the array it is called on. *)
Lemma Array_sort_st_spec (σ : store T) (cmp : T -> T -> Z) (arr : loc) (elems : list T) :
  σ !! arr = Some elems ->
  Array_sort_st cmp arr σ = Some (arr, <[arr := Array_sort cmp elems]> σ).
Proof.
  intros Harr. unfold Array_sort_st, st_bind, array_read, array_write, st_ret.
  rewrite Harr. cbv beta iota. by rewrite Harr.
Qed.

Lemma sortData_st_spec (get : T -> string -> value) (σ : store T)
    (data : loc) (elems : list T) (k : string) (d : Direction) :
  σ !! data = Some elems ->
  exists r σ', sortData_st get data k d σ = Some (r, σ')
    /\ σ !! r = None /\ σ' !! r = Some (sortData get elems k d) /\ preserves σ σ'.
Proof.
  intros Hdata. unfold sortData_st, st_bind.
  destruct (spread_st_spec σ data elems Hdata) as (r & σ1 & -> & Hfresh & Hr & Hpre).
  rewrite (Array_sort_st_spec σ1 _ r elems Hr).
  exists r, (<[r := Array_sort (compareFn get k d) elems]> σ1).
  split; [done|]. split; [done|]. split; [by rewrite lookup_insert_eq|].
  intros l Hl. rewrite lookup_insert_ne; [by apply Hpre|].
  intros <-. rewrite Hfresh in Hl. by destruct Hl.
Qed.

End StoreFacts.

(** C4: run on any store, the pair filter, [sortData] and the whole
    derivation return a freshly allocated array holding the result and leave
    every array that existed before, the input among them, element for
    element as it was. *)
Theorem pipeline_preserves_input (σ : store Pair.t) (arr : loc) (P : list Pair.t)
    (t k : string) (d : Direction) (c : option SortConfig) :
  σ !! arr = Some P ->
  (exists r σ', filteredPairs_st (Some arr) t σ = Some (r, σ')
     /\ σ !! r = None
     /\ σ' !! r = Some (filteredPairs (Some {| pairs := P |}) t)
     /\ σ' !! arr = Some P /\ preserves σ σ')
  /\ (exists r σ', sortData_st pair_get arr k d σ = Some (r, σ')
     /\ σ !! r = None
     /\ σ' !! r = Some (sortData pair_get P k d)
     /\ σ' !! arr = Some P /\ preserves σ σ')
  /\ (exists r σ', sortedPairs_st (Some arr) t c σ = Some (r, σ')
     /\ σ !! r = None
     /\ σ' !! r = Some (sortedPairs (Some {| pairs := P |}) t c)
     /\ σ' !! arr = Some P /\ preserves σ σ').
Proof.
  intros Harr.
  assert (Hkeep : forall σ' : store Pair.t, preserves σ σ' -> σ' !! arr = Some P).
  { intros σ' Hpre. rewrite Hpre; [done|]. by rewrite Harr. }
  destruct (Array_filter_st_spec σ (pair_matches t) arr P Harr)
    as (r1 & σ1 & Hrun1 & Hfresh1 & Hr1 & Hpre1).
  split; [|split].
  - exists r1, σ1. simpl. auto 10.
  - destruct (sortData_st_spec pair_get σ arr P k d Harr)
      as (r & σ' & Hrun & Hfresh & Hr & Hpre).
    exists r, σ'. auto 10.
  - unfold sortedPairs_st, sortedPairs, st_bind. simpl filteredPairs_st.
    rewrite Hrun1. simpl filteredPairs.
    destruct c as [c|]; [|exists r1, σ1; unfold st_ret; auto 10].
    unfold Array_length_st, st_bind, array_read, st_ret. rewrite Hr1.
    destruct (0 <? length (List.filter (pair_matches t) P))%nat;
      [|exists r1, σ1; auto 10].
    destruct (sortData_st_spec pair_get σ1 r1 _ (key c) (direction c) Hr1)
      as (r & σ' & Hrun & Hfresh & Hr & Hpre).
    assert (Hpre' : preserves σ σ') by (by apply (preserves_trans σ σ1 σ')).
    exists r, σ'. split; [done|]. split; [|auto].
    destruct (σ !! r) eqn:E; [|done].
    rewrite <- (Hpre1 r) in E by (by rewrite E). congruence.
Qed.

(** ** The derivation as a whole *)

Lemma sortedPairs_perm (pairsData : option PairsData) (t : string)
    (c : option SortConfig) :
  Permutation (sortedPairs pairsData t c) (filteredPairs pairsData t).
Proof.
  unfold sortedPairs. destruct c as [c|]; [|done].
  destruct (0 <? length (filteredPairs pairsData t))%nat; [|done].
  apply sortData_perm.
Qed.

Lemma sortedAssets_perm (assetsData : option AssetsData) (t : string)
    (c : option SortConfig) :
  Permutation (sortedAssets assetsData t c) (filteredAssets assetsData t).
Proof.
  unfold sortedAssets. destruct c as [c|]; [|done].
  destruct (0 <? length (filteredAssets assetsData t))%nat; [|done].
  apply sortData_perm.
Qed.

Lemma absent_data_st (σ : store Pair.t) (t : string) (c : option SortConfig) :
  exists r σ', sortedPairs_st None t c σ = Some (r, σ')
    /\ σ' !! r = Some [] /\ preserves σ σ'.
Proof.
  unfold sortedPairs_st, st_bind. cbn [filteredPairs_st].
  destruct (array_new_spec σ ([] : list Pair.t)) as (r & σ' & -> & _ & Hr & Hpre).
  exists r, σ'. split; [|done].
  destruct c as [c|]; [|done].
  unfold Array_length_st, st_bind, array_read, st_ret. by rewrite Hr.
Qed.

Lemma sortedPairs_eval_typed (pairsData : Fetched PairsData) (t : string)
    (c : option SortConfig) :
  sortedPairs_eval pairsData t c
  = match typed_data pairsData with
    | Some data => Value (sortedPairs data t c)
    | None => Throw TypeError
    end.
Proof. destruct pairsData, c; reflexivity. Qed.

Lemma sortedAssets_eval_typed (assetsData : Fetched AssetsData) (t : string)
    (c : option SortConfig) :
  sortedAssets_eval assetsData t c
  = match typed_data assetsData with
    | Some data => Value (sortedAssets data t c)
    | None => Throw TypeError
    end.
Proof. destruct assetsData, c; reflexivity. Qed.



(** ** The two sections of the page *)

Ltac section_cases :=
  repeat match goal with
         | |- _ /\ _ => split
         | |- _ <-> _ => split
         | |- _ -> _ => intros ?
         | H : _ /\ _ |- _ => destruct H
         | H : _ \/ _ |- _ => destruct H
         | H : ex _ |- _ => destruct H
         | H : is_Some None |- _ => by destruct H
         end;
  try discriminate; eauto.

(** C8, as the claim states it, fails: with the same successful pairs fetch
    the pairs section shows the cards when the assets fetch succeeded and
    the alert when it failed. *)
Lemma pairs_section_follows_assets_outcome :
  pairsSection (Registry assets_ok pairs_ok "" None)
  <> pairsSection (Registry assets_failed pairs_ok "" None).
Proof. vm_compute. discriminate. Qed.

(** C8, amended: the assets section is a function of the assets query
    alone, so no outcome of the pairs fetch changes it; the pairs section
    depends on both queries: the spinner while either is loading, the alert
    when neither is loading and either has failed, the cards otherwise. *)
Theorem sections_dependence (assetsQuery : Query.t AssetsData)
    (pairsQuery pairsQuery' : Query.t PairsData) (t t' : string)
    (c c' : option SortConfig) :
  assetsSection (Registry assetsQuery pairsQuery t c)
    = assetsSection (Registry assetsQuery pairsQuery' t' c')
  /\ (pairsSection (Registry assetsQuery pairsQuery t c) = PairsSpinner
      <-> Query.isLoading pairsQuery = true \/ Query.isLoading assetsQuery = true)
  /\ ((exists text, pairsSection (Registry assetsQuery pairsQuery t c) = PairsAlert text)
      <-> Query.isLoading pairsQuery = false /\ Query.isLoading assetsQuery = false
          /\ (is_Some (Query.error pairsQuery) \/ is_Some (Query.error assetsQuery)))
  /\ ((exists cards notice,
         pairsSection (Registry assetsQuery pairsQuery t c) = PairsGrid cards notice)
      <-> Query.isLoading pairsQuery = false /\ Query.isLoading assetsQuery = false
          /\ Query.error pairsQuery = None /\ Query.error assetsQuery = None).
Proof.
  split; [reflexivity|]. unfold Registry. cbn [pairsSection].
  destruct (Query.isLoading pairsQuery), (Query.isLoading assetsQuery);
    destruct (Query.error pairsQuery) as [e1|], (Query.error assetsQuery) as [e2|];
    cbn; section_cases.
Qed.

(** In the earlier layout each card looks at its own query alone, and the
    assets card has no state for a failed fetch. *)
Lemma earlier_cards_independent (assetsQuery assetsQuery' : Query.t AssetsData)
    (pairsQuery pairsQuery' : Query.t PairsData) (t t' : string)
    (c c' : option SortConfig) :
  Earlier.assetsCard (Earlier.App assetsQuery pairsQuery t c)
    = Earlier.assetsCard (Earlier.App assetsQuery pairsQuery' t' c')
  /\ Earlier.pairsCard (Earlier.App assetsQuery pairsQuery t c)
    = Earlier.pairsCard (Earlier.App assetsQuery' pairsQuery t c).
Proof. split; reflexivity. Qed.

(** ** The claims at concrete inputs *)

(** The typing of the records matters to [sortData]: among objects of which
    only some carry the key the comparator is no order, and the array comes
    back as it was, 2 before 1. *)
Remark sortData_some_with_k :
  sortData get_property some_with_k "k" asc = some_with_k
  /\ ~ monotone asc (List.map (fun o => get_property o "k") some_with_k).
Proof.
  split; [reflexivity|]. intros H. inversion H as [|? ? _ Hall]. subst.
  inversion Hall as [|? ? _ Hall']. subst.
  inversion Hall' as [|? ? H21 _]. discriminate H21.
Qed.


(** The filter text "btc" keeps the first of [BTC/USD; ETH/USD] only. *)
Example filter_btc :
  filteredPairs (Some {| pairs := [btc_usd; eth_usd] |}) "btc" = [btc_usd].
Proof. reflexivity. Qed.

(** Upper case in the text and in the data is ignored; ids are searched. *)
Example filter_rgb_eth :
  filteredPairs (Some {| pairs := [btc_usd; eth_usd] |}) "RGB:ETH" = [eth_usd].
Proof. reflexivity. Qed.

Example sort_by_base_asset_desc :
  sortData pair_get [btc_usd; eth_usd; btc_usd_inactive] "base_asset" desc
  = [eth_usd; btc_usd; btc_usd_inactive].
Proof. reflexivity. Qed.

Example sort_by_min_order_size_asc :
  sortData pair_get [eth_usd; btc_usd_inactive; btc_usd] "min_order_size" asc
  = [btc_usd; eth_usd; btc_usd_inactive].
Proof. reflexivity. Qed.

(** A key no pair has leaves the order alone. *)
Example sort_by_absent_key :
  sortData pair_get [eth_usd; btc_usd] "volume" asc = [eth_usd; btc_usd].
Proof. reflexivity. Qed.

(** Without the spread, [sort] would rewrite the array it is given. *)
Example sort_rewrites_its_array :
  Array_sort_st (compareFn pair_get "base_asset" asc) 1%positive
    {[ 1%positive := [eth_usd; btc_usd] ]}
  = Some (1%positive, {[ 1%positive := [btc_usd; eth_usd] ]}).
Proof.
  rewrite (Array_sort_st_spec _ _ _ [eth_usd; btc_usd]) by reflexivity.
  by rewrite insert_singleton_eq.
Qed.

(** No response: [details] falls back to the raw error text. *)
Example pairs_network_error :
  pairsQueryFn (D := PairsData) (fun _ => Rejected (IsAxiosError network_error)) regtest
  = Throws (ApiErr {| ApiError.message := "Failed to fetch trading pairs";
                      ApiError.code := Some "ERR_NETWORK";
                      ApiError.details := JString "Network Error" |}).
Proof. reflexivity. Qed.

Example pairs_section_with_assets :
  pairsSection (Registry assets_ok pairs_ok "eth" None)
  = PairsGrid [ {| card_pair := eth_usd; baseAsset := None;
                   quoteAsset := Some usd_asset |} ] false.
Proof. reflexivity. Qed.

Example pairs_section_without_assets :
  pairsSection (Registry assets_failed pairs_ok "eth" None)
  = PairsAlert "Failed to load data. Please try again later.".
Proof. reflexivity. Qed.

Example assets_section_failed :
  assetsSection (Registry assets_failed pairs_ok "" None)
  = {| assets_spinner := false;
       assets_alert := Some "Failed to fetch assets";
       assets_rows := [] |}.
Proof. reflexivity. Qed.

(** C3 at the scenario of the specification: HTTP 500 with the body
    [{"message":"db down"}]. *)
Lemma assets_http_500_db_down :
  assetsQueryFn (D := AssetsData)
    (fun _ => Rejected (IsAxiosError http_500_db_down)) signet
  = Throws (ApiErr {| ApiError.message := "Failed to fetch assets";
                      ApiError.code := Some "ERR_BAD_RESPONSE";
                      ApiError.details := JString "db down" |}).
Proof.
  destruct (proj1 (queryFn_normalizes_axios_error (D := AssetsData)
                     (fun _ => Rejected (IsAxiosError http_500_db_down)) signet
                     http_500_db_down) eq_refl)
    as (details & Hthrown & Hserver & _).
  rewrite Hthrown, (Hserver (JString "db down")); [reflexivity|].
  unfold server_message. eexists _, _. repeat split; reflexivity.
Defined.

(** C4 on a store holding one array: the derived array is new and sorted,
    the fetched array is as it was. *)
Lemma pipeline_preserves_input_witness :
  ({[ 1%positive := [eth_usd; btc_usd] ]} : store Pair.t) !! 1%positive
    = Some [eth_usd; btc_usd]
  /\ exists r σ',
       sortedPairs_st (Some 1%positive) "usd"
         (Some {| key := "base_asset"; direction := asc |})
         {[ 1%positive := [eth_usd; btc_usd] ]} = Some (r, σ')
       /\ σ' !! r = Some [btc_usd; eth_usd]
       /\ σ' !! 1%positive = Some [eth_usd; btc_usd].
Proof.
  assert (H : ({[ 1%positive := [eth_usd; btc_usd] ]} : store Pair.t) !! 1%positive
              = Some [eth_usd; btc_usd]) by reflexivity.
  split; [exact H|].
  destruct (pipeline_preserves_input _ _ _ "usd" "base_asset" asc
              (Some {| key := "base_asset"; direction := asc |}) H)
    as (_ & _ & r & σ' & Hrun & _ & Hr & Harr & _).
  exists r, σ'. split; [exact Hrun|]. split; [exact Hr | exact Harr].
Defined.

(** C9 on two pairs with the same quote asset. *)
Lemma sortData_all_ties_witness :
  (forall a b, In a [eth_usd; btc_usd] -> In b [eth_usd; btc_usd] ->
     js_lt (pair_get a "quote_asset") (pair_get b "quote_asset") = false
     /\ js_gt (pair_get a "quote_asset") (pair_get b "quote_asset") = false)
  /\ sortData pair_get [eth_usd; btc_usd] "quote_asset" desc = [eth_usd; btc_usd].
Proof.
  assert (H : forall a b, In a [eth_usd; btc_usd] -> In b [eth_usd; btc_usd] ->
     js_lt (pair_get a "quote_asset") (pair_get b "quote_asset") = false
     /\ js_gt (pair_get a "quote_asset") (pair_get b "quote_asset") = false).
  { intros a b [<-|[<-|[]]] [<-|[<-|[]]]; split; reflexivity. }
  split; [exact H|]. exact (sortData_all_ties pair_get _ _ desc H).
Defined.

(** C10 on two pairs that differ in id, activity, sizes and precisions. *)
Lemma pair_matches_four_fields_witness :
  pair_matches "btc" btc_usd = pair_matches "btc" btc_usd_inactive
  /\ Pair.id btc_usd <> Pair.id btc_usd_inactive
  /\ Pair.is_active btc_usd <> Pair.is_active btc_usd_inactive.
Proof.
  split; [|split; discriminate].
  exact (proj1 (pair_matches_four_fields "btc" btc_usd btc_usd_inactive
                  eq_refl eq_refl eq_refl eq_refl)).
Defined.

(** * More of the component *)

(** ** Searching *)

Lemma string_append_assoc (a b c : string) : (a +:+ b) +:+ c = a +:+ b +:+ c.
Proof. induction a as [|x a IH]; [done|]. rewrite !append_cons. by rewrite IH. Qed.

Lemma string_append_length (a b : string) :
  String.length (a +:+ b) = (String.length a + String.length b)%nat.
Proof. induction a as [|x a IH]; [done|]. rewrite append_cons. simpl. by rewrite IH. Qed.

Lemma string_append_empty (a : string) : a +:+ "" = a.
Proof. induction a as [|x a IH]; [done|]. rewrite append_cons. by rewrite IH. Qed.

Lemma substring_of_refl (s : string) : substring_of s s.
Proof. exists "", "". by rewrite append_nil, string_append_empty. Qed.

Lemma substring_of_trans (a b c : string) :
  substring_of a b -> substring_of b c -> substring_of a c.
Proof.
  intros (p1 & q1 & ->) (p2 & q2 & ->).
  exists (p2 +:+ p1), (q1 +:+ q2). by rewrite !string_append_assoc.
Qed.

Lemma substring_of_length (a b : string) :
  substring_of a b -> (String.length a <= String.length b)%nat.
Proof. intros (p & q & ->). rewrite !string_append_length. lia. Qed.

Lemma asset_matches_matching (t : string) (asset : Asset.t) :
  asset_matches t asset = true <-> asset_matching t asset.
Proof.
  unfold asset_matches, asset_matching.
  rewrite !orb_true_iff, !includes_substring_of. tauto.
Qed.

Lemma filter_sublist_impl {A} (f g : A -> bool) (l : list A) :
  (forall x, f x = true -> g x = true) ->
  sublist (List.filter f l) (List.filter g l).
Proof.
  intros Hfg. induction l as [|x l IH]; simpl; [constructor|].
  destruct (f x) eqn:Hf.
  - rewrite (Hfg x Hf). by apply sublist_skip.
  - destruct (g x); [by apply sublist_cons | done].
Qed.

Lemma filter_none {A} (f : A -> bool) (l : list A) :
  (forall x, In x l -> f x = false) -> List.filter f l = [].
Proof.
  induction l as [|x l IH]; simpl; intros H; [done|].
  rewrite (H x) by auto. apply IH. auto.
Qed.

(** X1: when the lowercase of a search text [t'] contains the lowercase of
    [t], the pairs and the assets kept for [t'] are among those kept for
    [t], in the same order. *)
Theorem longer_text_narrows (pairsData : option PairsData)
    (assetsData : option AssetsData) (t t' : string) :
  substring_of (toLowerCase t) (toLowerCase t') ->
  sublist (filteredPairs pairsData t') (filteredPairs pairsData t)
  /\ sublist (filteredAssets assetsData t') (filteredAssets assetsData t).
Proof.
  intros Ht. split.
  - destruct pairsData as [d|]; simpl; [|constructor].
    apply filter_sublist_impl. intros pair.
    rewrite !pair_matches_matching. unfold pair_matching.
    intros [H|[H|H]]; [left | right; left | right; right];
      by apply (substring_of_trans _ (toLowerCase t')).
  - destruct assetsData as [d|]; simpl; [|constructor].
    apply filter_sublist_impl. intros asset.
    rewrite !asset_matches_matching. unfold asset_matching.
    intros [H|[H|H]]; [left | right; left | right; right];
      by apply (substring_of_trans _ (toLowerCase t')).
Qed.

(** X2: a listed pair is found by its symbol ["base/quote"], by its base
    id and by its quote id, typed in any letter case. *)
Theorem pair_found_by_own_fields (d : PairsData) (pair : Pair.t) (t : string) :
  In pair (pairs d) ->
  toLowerCase t
    = toLowerCase (Pair.base_asset pair +:+ "/" +:+ Pair.quote_asset pair)
  \/ toLowerCase t = toLowerCase (Pair.base_asset_id pair)
  \/ toLowerCase t = toLowerCase (Pair.quote_asset_id pair) ->
  In pair (filteredPairs (Some d) t).
Proof.
  intros Hin Ht. simpl. apply List.filter_In. split; [exact Hin|].
  apply pair_matches_matching. unfold pair_matching.
  destruct Ht as [ -> | [ -> | -> ] ]; auto using substring_of_refl.
Qed.

(** X3: a search text whose lowercase form is longer than the lowercase
    form of each of the three strings searched in every pair finds nothing. *)
Theorem too_long_text_finds_nothing (d : PairsData) (t : string) :
  (forall pair, In pair (pairs d) ->
     (String.length
        (toLowerCase (Pair.base_asset pair +:+ "/" +:+ Pair.quote_asset pair))
        < String.length (toLowerCase t)
      /\ String.length (toLowerCase (Pair.base_asset_id pair))
         < String.length (toLowerCase t)
      /\ String.length (toLowerCase (Pair.quote_asset_id pair))
         < String.length (toLowerCase t))%nat) ->
  filteredPairs (Some d) t = [].
Proof.
  intros Hlen. simpl. apply filter_none. intros pair Hin.
  destruct (pair_matches t pair) eqn:Hm; [|done]. exfalso.
  destruct (Hlen pair Hin) as (H1 & H2 & H3).
  apply pair_matches_matching in Hm.
  destruct Hm as [H|[H|H]]; apply substring_of_length in H; lia.
Qed.

(** X4: the asset filter keeps exactly the assets whose lowercase ticker,
    name or id contains the lowercase text, in the order of the collection;
    the empty text keeps them all and filtering again changes nothing. *)
Theorem filteredAssets_exactly_matching (A : list Asset.t) (t : string) :
  sublist (filteredAssets (Some {| assets := A |}) t) A
  /\ (forall asset, In asset (filteredAssets (Some {| assets := A |}) t)
                    <-> In asset A /\ asset_matching t asset)
  /\ filteredAssets (Some {| assets := A |}) "" = A.
Proof.
  simpl. split; [apply filter_sublist|]. split.
  - intros asset. rewrite List.filter_In, asset_matches_matching. tauto.
  - apply filter_all. intros asset _. unfold asset_matches. simpl.
    by rewrite includes_empty.
Qed.

(** ** Sorting, filtering and the sort control *)

Lemma StronglySorted_filter {A} (R : A -> A -> Prop) (f : A -> bool) (l : list A) :
  StronglySorted R l -> StronglySorted R (List.filter f l).
Proof.
  induction 1 as [|x l Hs IH Hall]; simpl; [constructor|].
  destruct (f x); [|exact IH]. constructor; [exact IH|].
  rewrite List.Forall_forall in *. intros y Hy.
  apply List.filter_In in Hy as [Hy _]. by apply Hall.
Qed.

Lemma filter_swap {A} (f g : A -> bool) (l : list A) :
  List.filter f (List.filter g l) = List.filter g (List.filter f l).
Proof.
  induction l as [|x l IH]; [done|]. simpl.
  destruct (g x) eqn:Hg, (f x) eqn:Hf; simpl; rewrite ?Hg, ?Hf, IH; done.
Qed.

Lemma StronglySorted_snoc {A} (R : A -> A -> Prop) (l : list A) (x : A) :
  StronglySorted R l -> Forall (fun y => R y x) l -> StronglySorted R (l ++ [x]).
Proof.
  induction 1 as [|y l Hs IH Hall]; intros Hx; simpl.
  - repeat constructor.
  - apply Forall_cons_1 in Hx as [Hyx Hx]. constructor; [by apply IH|].
    apply Forall_app. split; [exact Hall | by constructor].
Qed.

Lemma StronglySorted_rev {A} (R : A -> A -> Prop) (l : list A) :
  StronglySorted R l -> StronglySorted (fun a b => R b a) (List.rev l).
Proof.
  induction 1 as [|x l Hs IH Hall]; simpl; [constructor|].
  apply StronglySorted_snoc; [exact IH|].
  rewrite List.Forall_forall in *. intros y Hy. apply Hall. by apply List.in_rev.
Qed.

Lemma rev_short {A} (l : list A) : (length l <= 1)%nat -> List.rev l = l.
Proof. destruct l as [|x [|y l]]; simpl; [done | done | lia]. Qed.

Section SortDataMore.
Context {T : Type} (get : T -> string -> value) (Hty : typed_by get).

Lemma compareFn_total (k : string) (d : Direction) (a b : T) :
  precedes (compareFn get k d) a b \/ precedes (compareFn get k d) b a.
Proof. apply precedes_total. Qed.

Lemma compareFn_transitive (k : string) (d : Direction) (a b c : T) :
  precedes (compareFn get k d) a b -> precedes (compareFn get k d) b c ->
  precedes (compareFn get k d) a c.
Proof. by apply precedes_transitive. Qed.

Lemma sortData_sorted (S : list T) (k : string) (d : Direction) :
  StronglySorted (precedes (compareFn get k d)) (sortData get S k d).
Proof.
  apply Array_sort_sorted; [apply compareFn_total | apply compareFn_transitive].
Qed.

Lemma sortData_keeps_ties (S : list T) (k : string) (d : Direction) :
  keeps_ties (compareFn get k d) S (sortData get S k d).
Proof. apply Array_sort_keeps_ties, compareFn_transitive. Qed.

Lemma sortData_unique (S l' : list T) (k : string) (d : Direction) :
  StronglySorted (precedes (compareFn get k d)) l' ->
  keeps_ties (compareFn get k d) S l' ->
  l' = sortData get S k d.
Proof.
  apply Array_sort_unique; [apply compareFn_total | apply compareFn_transitive].
Qed.

Lemma sortData_filter (f : T -> bool) (S : list T) (k : string) (d : Direction) :
  List.filter f (sortData get S k d) = sortData get (List.filter f S) k d.
Proof.
  apply sortData_unique.
  - apply StronglySorted_filter, sortData_sorted.
  - intros z. rewrite filter_swap, (sortData_keeps_ties S k d z).
    apply filter_swap.
Qed.

Lemma precedes_desc_asc (k : string) (a b : T) :
  precedes (compareFn get k desc) a b <-> precedes (compareFn get k asc) b a.
Proof. rewrite !compareFn_precedes. done. Qed.

Lemma tied_desc_asc (k : string) (a b : T) :
  tied (compareFn get k desc) a b = tied (compareFn get k asc) a b.
Proof.
  apply eq_true_iff_eq. rewrite !tied_precedes, !precedes_desc_asc. tauto.
Qed.

Lemma untied_filter_short (k : string) (d : Direction) (S : list T) (z : T) :
  untied (compareFn get k d) S ->
  (length (List.filter (tied (compareFn get k d) z) S) <= 1)%nat.
Proof.
  induction 1 as [|x l Hx Hl IH]; simpl; [lia|].
  destruct (tied (compareFn get k d) z x) eqn:Hzx; [|exact IH].
  rewrite filter_none; [simpl; lia|].
  intros y Hy. destruct (tied (compareFn get k d) z y) eqn:Hzy; [|done].
  rewrite List.Forall_forall in Hx. specialize (Hx y Hy).
  apply tied_precedes in Hzx as [Hzx Hxz], Hzy as [Hzy Hyz].
  assert (H : tied (compareFn get k d) x y = true).
  { apply tied_precedes. split; by apply (compareFn_transitive k d _ z). }
  congruence.
Qed.

Lemma sortData_desc_rev (S : list T) (k : string) :
  untied (compareFn get k asc) S ->
  sortData get S k desc = List.rev (sortData get S k asc).
Proof.
  intros Hun. symmetry. apply sortData_unique.
  - pose proof (StronglySorted_rev _ _ (sortData_sorted S k asc)) as H.
    apply (StronglySorted_map _ (precedes (compareFn get k desc)) (fun x => x)) in H.
    + by rewrite List.map_id in H.
    + intros a b. apply precedes_desc_asc.
  - intros z. rewrite List.filter_rev.
    rewrite (List.filter_ext _ _ (tied_desc_asc k z)).
    rewrite (sortData_keeps_ties S k asc z).
    rewrite rev_short by (by apply untied_filter_short).
    symmetry. apply List.filter_ext, tied_desc_asc.
Qed.

End SortDataMore.

Lemma untied_filter {T} (cmp : T -> T -> Z) (f : T -> bool) (l : list T) :
  untied cmp l -> untied cmp (List.filter f l).
Proof.
  induction 1 as [|x l Hx Hl IH]; simpl; [constructor|].
  destruct (f x); [|exact IH]. constructor; [|exact IH].
  rewrite List.Forall_forall in *. intros y Hy.
  apply List.filter_In in Hy as [Hy _]. by apply Hx.
Qed.

(** X5: filtering and sorting commute: the pairs kept from the sorted
    collection are the sorted kept pairs, so the derived view is the filter
    of the collection sorted as a whole; the same holds for the assets. *)
Theorem filter_sort_commute (P : list Pair.t) (A : list Asset.t)
    (t k : string) (d : Direction) (c : SortConfig) :
  filteredPairs (Some {| pairs := sortData pair_get P k d |}) t
    = sortData pair_get (filteredPairs (Some {| pairs := P |}) t) k d
  /\ sortedPairs (Some {| pairs := P |}) t (Some c)
    = filteredPairs (Some {| pairs := sortData pair_get P (key c) (direction c) |}) t
  /\ filteredAssets (Some {| assets := sortData asset_get A k d |}) t
    = sortData asset_get (filteredAssets (Some {| assets := A |}) t) k d.
Proof.
  split; [apply sortData_filter, pair_get_typed|].
  split; [|apply sortData_filter, asset_get_typed].
  unfold sortedPairs. simpl.
  rewrite (sortData_filter pair_get pair_get_typed).
  destruct (List.filter (pair_matches t) P); reflexivity.
Qed.

(** X6: [sortData] is stable on pairs and on assets: the elements between
    which the comparator does not decide (equal or absent key values) keep
    the order they had in the input. *)
Theorem sortData_stable (k : string) (d : Direction) :
  (forall (S : list Pair.t) (z : Pair.t),
     List.filter (tied (compareFn pair_get k d) z) (sortData pair_get S k d)
     = List.filter (tied (compareFn pair_get k d) z) S)
  /\ (forall (S : list Asset.t) (z : Asset.t),
     List.filter (tied (compareFn asset_get k d) z) (sortData asset_get S k d)
     = List.filter (tied (compareFn asset_get k d) z) S).
Proof.
  split; intros S z.
  - apply (sortData_keeps_ties pair_get pair_get_typed).
  - apply (sortData_keeps_ties asset_get asset_get_typed).
Qed.

(** X7: the outcome of [sortData] on pairs does not depend on the sorting
    algorithm: every arrangement that is ordered by the comparator and
    keeps tied pairs in their input order is the array [sortData] returns. *)
Theorem sortData_only_stable_order (S l' : list Pair.t) (k : string) (d : Direction) :
  StronglySorted (precedes (compareFn pair_get k d)) l' ->
  keeps_ties (compareFn pair_get k d) S l' ->
  l' = sortData pair_get S k d.
Proof. apply sortData_unique, pair_get_typed. Qed.

(** X8: when no two pairs tie on the key, sorting descending gives the
    reverse of sorting ascending, also after filtering. *)
Theorem descending_reverses_ascending (P : list Pair.t) (t k : string) :
  untied (compareFn pair_get k asc) P ->
  sortData pair_get P k desc = List.rev (sortData pair_get P k asc)
  /\ sortedPairs (Some {| pairs := P |}) t (Some {| key := k; direction := desc |})
     = List.rev (sortedPairs (Some {| pairs := P |}) t
                   (Some {| key := k; direction := asc |})).
Proof.
  intros Hun. split; [by apply sortData_desc_rev; [apply pair_get_typed|]|].
  unfold sortedPairs. simpl.
  destruct (0 <? length (List.filter (pair_matches t) P))%nat eqn:Hlen.
  - apply sortData_desc_rev; [apply pair_get_typed | by apply untied_filter].
  - destruct (List.filter (pair_matches t) P); [done | discriminate].
Qed.

(** X9: [handleSort] always selects the clicked key; the direction is
    descending exactly when that key was already sorted ascending, and
    ascending otherwise, so from the second click on the same header the
    direction alternates.  [handleKeySort] does the same for Enter and the
    space bar, with [preventDefault], and nothing for any other key. *)
Theorem handleSort_toggles (k e_key : string) (current : option SortConfig) :
  (exists d, handleSort k current = Some {| key := k; direction := d |}
     /\ (d = desc <-> current = Some {| key := k; direction := asc |}))
  /\ handleSort k (handleSort k (handleSort k current)) = handleSort k current
  /\ handleSort k (handleSort k current) <> handleSort k current
  /\ (fst (handleKeySort e_key k current) = true <-> e_key = "Enter" \/ e_key = " ")
  /\ snd (handleKeySort e_key k current)
     = if fst (handleKeySort e_key k current) then handleSort k current else current.
Proof.
  assert (Hkk : String.eqb k k = true) by apply String.eqb_refl.
  split; [|split; [|split; [|split]]].
  - unfold handleSort. destruct current as [[ck [|]]|]; eexists; (split; [reflexivity|]).
    + destruct (String.eqb_spec ck k) as [->|Hne]; simpl; split; try done.
      intros [= ->]. done.
    + simpl. rewrite andb_false_r. split; done.
    + split; done.
  - unfold handleSort. destruct current as [[ck [|]]|]; simpl; rewrite ?Hkk; simpl;
      try destruct (String.eqb ck k); simpl; rewrite ?Hkk; reflexivity.
  - unfold handleSort. destruct current as [[ck [|]]|]; simpl; rewrite ?Hkk; simpl;
      try destruct (String.eqb ck k); simpl; rewrite ?Hkk; simpl; discriminate.
  - unfold handleKeySort.
    destruct (String.eqb_spec e_key "Enter") as [->|H1]; simpl; [by split; auto|].
    destruct (String.eqb_spec e_key " ") as [->|H2]; simpl; [by split; auto|].
    split; [done | by intros [?|?]].
  - unfold handleKeySort.
    by destruct (String.eqb e_key "Enter" || String.eqb e_key " ").
Qed.

(** X7 on two pairs already in order. *)
Lemma sortData_only_stable_order_witness :
  StronglySorted (precedes (compareFn pair_get "base_asset" asc)) [btc_usd; eth_usd]
  /\ keeps_ties (compareFn pair_get "base_asset" asc) [btc_usd; eth_usd] [btc_usd; eth_usd]
  /\ [btc_usd; eth_usd] = sortData pair_get [btc_usd; eth_usd] "base_asset" asc.
Proof.
  assert (Hs : StronglySorted (precedes (compareFn pair_get "base_asset" asc))
                 [btc_usd; eth_usd]).
  { repeat constructor. }
  assert (Ht : keeps_ties (compareFn pair_get "base_asset" asc)
                 [btc_usd; eth_usd] [btc_usd; eth_usd]).
  { intros z. reflexivity. }
  split; [exact Hs|]. split; [exact Ht|].
  exact (sortData_only_stable_order _ _ _ _ Hs Ht).
Defined.

(** X8 on two pairs with different base assets. *)
Lemma descending_reverses_ascending_witness :
  untied (compareFn pair_get "base_asset" asc) [eth_usd; btc_usd]
  /\ sortData pair_get [eth_usd; btc_usd] "base_asset" desc
     = List.rev (sortData pair_get [eth_usd; btc_usd] "base_asset" asc).
Proof.
  assert (Hun : untied (compareFn pair_get "base_asset" asc) [eth_usd; btc_usd]).
  { repeat constructor. }
  split; [exact Hun|].
  exact (proj1 (descending_reverses_ascending _ "" "base_asset" Hun)).
Defined.

(** X1 on the texts "US" and "usd". *)
Lemma longer_text_narrows_witness :
  substring_of (toLowerCase "US") (toLowerCase "usd")
  /\ sublist (filteredPairs (Some {| pairs := [btc_usd; eth_usd] |}) "usd")
             (filteredPairs (Some {| pairs := [btc_usd; eth_usd] |}) "US").
Proof.
  assert (H : substring_of (toLowerCase "US") (toLowerCase "usd")).
  { exists "", "d". reflexivity. }
  split; [exact H|].
  exact (proj1 (longer_text_narrows (Some {| pairs := [btc_usd; eth_usd] |}) None
                  "US" "usd" H)).
Defined.

(** X2: [eth_usd] is found by its base id in capitals. *)
Lemma pair_found_by_own_fields_witness :
  In eth_usd [btc_usd; eth_usd]
  /\ In eth_usd (filteredPairs (Some {| pairs := [btc_usd; eth_usd] |}) "RGB:ETH-77C0").
Proof.
  assert (H : In eth_usd [btc_usd; eth_usd]) by (right; left; reflexivity).
  split; [exact H|].
  apply (pair_found_by_own_fields {| pairs := [btc_usd; eth_usd] |} eth_usd
           "RGB:ETH-77C0" H).
  right. left. reflexivity.
Defined.

(** X3: a text of twenty characters against the two sample pairs. *)
Lemma too_long_text_finds_nothing_witness :
  filteredPairs (Some {| pairs := [btc_usd; eth_usd] |}) "Bitcoin against Euro" = [].
Proof.
  apply (too_long_text_finds_nothing {| pairs := [btc_usd; eth_usd] |}).
  intros pair [<-|[<-|[]]]; simpl; lia.
Defined.

(** ** Copy to clipboard *)

Section CopyFacts.
Context {I : Type} (mark : string -> I) (clear : I).

Lemma copy_run_facts (events : list Copy.event) (s s' : Copy.t I) :
  copy_run (copy_step mark clear) s events = Some s' ->
  ((Copy.timeouts s = O -> Copy.indicator s = clear) ->
   Copy.timeouts s' = O -> Copy.indicator s' = clear)
  /\ Copy.clipboard s'
     = match last_written events with
       | Some text => Some text
       | None => Copy.clipboard s
       end
  /\ (Copy.timeouts s' + count_events is_timeout events
      = Copy.timeouts s + count_events is_written events)%nat
  /\ Copy.logged s' = (Copy.logged s + count_events is_refused events)%nat.
Proof.
  revert s. induction events as [|e events IH]; intros s Hrun.
  - injection Hrun as <-. simpl. split; [auto|]. split; [done|]. split; lia.
  - cbn [copy_run] in Hrun.
    destruct (copy_step mark clear s e) as [s1|] eqn:Hstep; [|done].
    destruct (IH s1 Hrun) as (Hind & Hclip & Htime & Hlog).
    cbn [last_written count_events]. rewrite Hclip, Hlog.
    destruct e as [text|text|]; simpl in Hstep.
    + injection Hstep as <-. simpl in *.
      split; [intros _; by apply Hind|].
      split; [by destruct (last_written events)|]. split; lia.
    + injection Hstep as <-. simpl in *.
      split; [exact Hind|].
      split; [by destruct (last_written events)|]. split; lia.
    + destruct (Copy.timeouts s) as [|n] eqn:Hn; [done|].
      injection Hstep as <-. simpl in *.
      split; [intros _; by apply Hind|].
      split; [by destruct (last_written events)|]. split; lia.
Qed.

End CopyFacts.

(** X10: from a state with the indicator off and no timeout outstanding,
    whatever sequence of successful copies, refused copies and timeouts the
    handlers [handleCopy] and [copyToClipboard] go through: the indicator is
    off whenever no timeout is outstanding, the clipboard holds the text of
    the last successful copy (or what it held, if none succeeded), every
    success has started one timeout, and every refusal has been logged and
    has changed nothing else. *)
Theorem copy_indicator_never_sticks (events : list Copy.event)
    (held : option string) (n : nat)
    (s : Copy.t bool) (s' : Copy.t (option string)) :
  copy_run handleCopy (Copy.mk held false O n) events = Some s ->
  copy_run copyToClipboard (Copy.mk held None O n) events = Some s' ->
  (Copy.timeouts s = O -> Copy.indicator s = false)
  /\ (Copy.timeouts s' = O -> Copy.indicator s' = None)
  /\ Copy.clipboard s = match last_written events with
                        | Some text => Some text
                        | None => held
                        end
  /\ Copy.clipboard s' = Copy.clipboard s
  /\ (Copy.timeouts s + count_events is_timeout events
      = count_events is_written events)%nat
  /\ Copy.logged s = (n + count_events is_refused events)%nat.
Proof.
  intros Hrun Hrun'.
  destruct (copy_run_facts (fun _ => true) false _ _ _ Hrun)
    as (Hind & Hclip & Htime & Hlog).
  destruct (copy_run_facts Some None _ _ _ Hrun') as (Hind' & Hclip' & _ & _).
  simpl in *.
  split; [by apply Hind|]. split; [by apply Hind'|].
  split; [exact Hclip|]. split; [congruence|]. split; [lia | exact Hlog].
Qed.

(** X11: the timeouts are never cancelled: after two successful copies the
    first timeout to fire, the one of the first copy, switches the
    indicator off although the second copy's timeout is still outstanding. *)
Theorem early_timeout_clears_later_copy (s : Copy.t (option string)) (a b : string) :
  exists s',
    copy_run copyToClipboard s [Copy.Written a; Copy.Written b; Copy.TimeoutFired]
      = Some s'
    /\ Copy.indicator s' = None
    /\ Copy.clipboard s' = Some b
    /\ Copy.timeouts s' = S (Copy.timeouts s)
    /\ copy_run copyToClipboard s [Copy.Written a; Copy.Written b]
       = Some (Copy.mk (Some b) (Some b) (S (S (Copy.timeouts s))) (Copy.logged s)).
Proof.
  eexists. split; [reflexivity|]. split; [done|]. split; [done|]. split; done.
Qed.

(** X10 on a refused copy, a copy of "BTC" and its timeout. *)
Lemma copy_indicator_never_sticks_witness :
  copy_run handleCopy (Copy.mk None false O O)
    [Copy.Refused "x"; Copy.Written "BTC"; Copy.TimeoutFired]
    = Some (Copy.mk (Some "BTC") false O 1)
  /\ copy_run copyToClipboard (Copy.mk None None O O)
       [Copy.Refused "x"; Copy.Written "BTC"; Copy.TimeoutFired]
       = Some (Copy.mk (Some "BTC") None O 1)
  /\ Copy.clipboard (Copy.mk (Some "BTC") false O 1 : Copy.t bool)
     = last_written [Copy.Refused "x"; Copy.Written "BTC"; Copy.TimeoutFired].
Proof.
  split; [reflexivity|]. split; [reflexivity|].
  exact (proj1 (proj2 (proj2 (copy_indicator_never_sticks
           [Copy.Refused "x"; Copy.Written "BTC"; Copy.TimeoutFired] None O
           (Copy.mk (Some "BTC") false O 1) (Copy.mk (Some "BTC") None O 1)
           eq_refl eq_refl)))).
Defined.

(** ** The [AssetId] display *)

Lemma substring_from_start (m : nat) (s : string) :
  exists post, s = String.substring 0 m s +:+ post
    /\ String.length (String.substring 0 m s) = Nat.min m (String.length s).
Proof.
  revert s. induction m as [|m IH]; intros s.
  - exists s. by destruct s.
  - destruct s as [|c s]; [by exists ""|].
    destruct (IH s) as (post & Hs & Hlen). exists post. simpl.
    rewrite append_cons. split; [congruence | by rewrite Hlen].
Qed.

Lemma substring_parts (n m : nat) (s : string) :
  exists pre post, s = pre +:+ String.substring n m s +:+ post
    /\ String.length pre = Nat.min n (String.length s)
    /\ String.length (String.substring n m s) = Nat.min m (String.length s - n).
Proof.
  revert s. induction n as [|n IH]; intros s.
  - destruct (substring_from_start m s) as (post & Hs & Hlen).
    exists "", post. rewrite append_nil, Nat.sub_0_r. done.
  - destruct s as [|c s].
    + exists "", "". by destruct m.
    + destruct (IH s) as (pre & post & Hs & Hpre & Hlen).
      exists (String c pre), post. simpl. rewrite append_cons.
      split; [congruence|]. split; [by rewrite Hpre | exact Hlen].
Qed.

Lemma string_length_zero (s : string) : String.length s = O -> s = "".
Proof. by destruct s. Qed.

Lemma append_split (a b c d : string) :
  a +:+ b = c +:+ d -> (String.length a <= String.length c)%nat ->
  exists mid, c = a +:+ mid.
Proof.
  revert c. induction a as [|x a IH]; intros c Heq Hlen.
  - exists c. by rewrite append_nil.
  - destruct c as [|y c]; [simpl in Hlen; lia|].
    rewrite !append_cons in Heq. injection Heq as -> Heq.
    destruct (IH c Heq) as (mid & ->); [simpl in Hlen; lia|].
    exists mid. by rewrite append_cons.
Qed.

Lemma slice_first_8 (id : string) :
  String_slice id 0 (Some 8) = String.substring 0 (Nat.min 8 (String.length id)) id.
Proof.
  unfold String_slice, slice_position.
  change (0 <? 0)%Z with false. change (8 <? 0)%Z with false.
  cbv iota. f_equal; lia.
Qed.

Lemma slice_last_8 (id : string) :
  String_slice id (-8) None
  = String.substring (String.length id - 8)
      (String.length id - (String.length id - 8)) id.
Proof.
  unfold String_slice, slice_position.
  change (-8 <? 0)%Z with true. cbv iota. f_equal; lia.
Qed.

(** X12: for an id other than "BTC", [AssetId] shows the first and the
    last eight characters of the id (all of it, twice, when it has at most
    eight); of an id of sixteen characters or more only the middle is
    hidden; the button always copies the complete id. *)
Theorem AssetId_shows_both_ends (id : string) :
  id <> "BTC" ->
  exists first last,
    id_text (AssetId id true) = TruncatedId first last
    /\ id_text (AssetId id false) = TruncatedId first last
    /\ copy_text (AssetId id true) = Some id
    /\ String.length first = Nat.min 8 (String.length id)
    /\ String.length last = Nat.min 8 (String.length id)
    /\ (exists rest, id = first +:+ rest)
    /\ (exists rest, id = rest +:+ last)
    /\ ((16 <= String.length id)%nat ->
        exists hidden, id = first +:+ hidden +:+ last
          /\ String.length hidden = (String.length id - 16)%nat)
    /\ ((String.length id <= 8)%nat -> first = id /\ last = id).
Proof.
  intros Hbtc. apply String.eqb_neq in Hbtc.
  exists (String_slice id 0 (Some 8)), (String_slice id (-8) None).
  unfold AssetId. rewrite Hbtc. cbn [id_text copy_text].
  rewrite slice_first_8, slice_last_8.
  set (len := String.length id).
  destruct (substring_from_start (Nat.min 8 len) id) as (post1 & H1 & L1).
  destruct (substring_parts (len - 8) (len - (len - 8)) id)
    as (pre2 & post2 & H2 & Lpre2 & L2).
  fold len in L1, Lpre2, L2.
  set (first := String.substring 0 (Nat.min 8 len) id) in *.
  set (last := String.substring (len - 8) (len - (len - 8)) id) in *.
  assert (Hpost2 : post2 = "").
  { apply string_length_zero.
    assert (H : String.length id
                = (String.length pre2 + (String.length last + String.length post2))%nat).
    { rewrite H2 at 1. by rewrite !string_append_length. }
    fold len in H. lia. }
  subst post2. rewrite string_append_empty in H2.
  split; [done|]. split; [done|]. split; [done|].
  split; [lia|]. split; [lia|].
  split; [by exists post1|]. split; [by exists pre2|]. split.
  - intros H16.
    destruct (append_split first post1 pre2 last) as (hidden & Hh); [congruence | lia|].
    exists hidden. split; [by rewrite H2, Hh, string_append_assoc|].
    assert (H : String.length pre2 = (String.length first + String.length hidden)%nat).
    { by rewrite Hh, string_append_length. }
    lia.
  - intros H8. split.
    + assert (Hp : post1 = "").
      { apply string_length_zero.
        assert (H : String.length id = (String.length first + String.length post1)%nat).
        { rewrite H1 at 1. by rewrite string_append_length. }
        fold len in H. lia. }
      rewrite Hp, string_append_empty in H1. done.
    + assert (Hp : pre2 = "") by (apply string_length_zero; lia).
      rewrite Hp, append_nil in H2. done.
Qed.

(** X12 on a long id. *)
Lemma AssetId_shows_both_ends_witness :
  long_id <> "BTC"
  /\ id_text_shown (id_text (AssetId long_id true)) = "rgb:2dkS...v4gTsJjX"
  /\ exists first last, id_text (AssetId long_id true) = TruncatedId first last
       /\ String.length first = 8%nat.
Proof.
  assert (H : long_id <> "BTC") by discriminate.
  split; [exact H|]. split; [reflexivity|].
  destruct (AssetId_shows_both_ends long_id H)
    as (first & last & Htext & _ & _ & Hlen & _).
  exists first, last. split; [exact Htext | exact Hlen].
Defined.

(** ** The cards and the page *)

Lemma foldl_insert_lookup (l : list Asset.t) (acc : gmap string Asset.t) (k : string) :
  foldl (fun acc asset => <[Asset.asset_id asset := asset]> acc) acc l !! k
  = match last (filter (fun a => Asset.asset_id a = k) l) with
    | Some a => Some a
    | None => acc !! k
    end.
Proof.
  revert acc. induction l as [|x l IH]; intros acc; [done|].
  cbn [foldl]. rewrite IH, filter_cons.
  destruct (decide (Asset.asset_id x = k)) as [Hx|Hx].
  - rewrite last_cons.
    destruct (last (filter (fun a => Asset.asset_id a = k) l)); [done|].
    by rewrite Hx, lookup_insert_eq.
  - destruct (last (filter (fun a => Asset.asset_id a = k) l)); [done|].
    by rewrite lookup_insert_ne.
Qed.

(** X13: when the fetched assets list one or more assets under an id, the
    map built for the cards holds the last of them; a card of a pair with
    that base id shows this asset and its name (the pair's own symbol when
    the name is empty), unless the id is "BTC", which is never looked up. *)
Theorem card_shows_last_asset_of_id (d : AssetsData) (pair : Pair.t) (a : Asset.t) :
  last (filter (fun x => Asset.asset_id x = Pair.base_asset_id pair) (assets d))
    = Some a ->
  assets_by_id (Some d) !! Pair.base_asset_id pair = Some a
  /\ Asset.asset_id a = Pair.base_asset_id pair
  /\ baseAsset (PairCard pair (assets_by_id (Some d)))
     = (if String.eqb (Pair.base_asset_id pair) "BTC" then None else Some a)
  /\ fst (card_names (PairCard pair (assets_by_id (Some d))))
     = (if String.eqb (Pair.base_asset_id pair) "BTC" then Pair.base_asset pair
        else if String.eqb (Asset.name a) "" then Pair.base_asset pair
        else Asset.name a).
Proof.
  intros Hlast.
  assert (Hlook : assets_by_id (Some d) !! Pair.base_asset_id pair = Some a).
  { unfold assets_by_id. by rewrite foldl_insert_lookup, Hlast. }
  split; [exact Hlook|]. split.
  - apply last_Some_elem_of, list_elem_of_filter in Hlast. tauto.
  - unfold card_names, PairCard. cbn [baseAsset card_pair fst].
    destruct (String.eqb (Pair.base_asset_id pair) "BTC"); [done|].
    rewrite Hlook. done.
Qed.

(** X14: in [App.tsx], once the assets request has failed, whatever the
    failure carried (code, response, server message): the assets section
    shows no spinner, no row and the alert with one of two fixed texts, and
    the pairs section shows no card, only its spinner or its alert. *)
Theorem failed_assets_fetch_on_the_page (axios_get : string -> Settled AssetsData)
    (network : Network) (reason : Caught) (pairsQuery : Query.t PairsData)
    (t : string) (c : option SortConfig) :
  axios_get (API_ENDPOINTS network +:+ "/api/v1/market/assets") = Rejected reason ->
  assetsSection
    (Registry (useQuery (Finished (assetsQueryFn axios_get network))) pairsQuery t c)
  = {| assets_spinner := false;
       assets_alert :=
         Some match reason with
              | IsAxiosError _ => "Failed to fetch assets"
              | NotAxiosError => "An unexpected error occurred while fetching assets"
              end;
       assets_rows := [] |}
  /\ pairsSection
       (Registry (useQuery (Finished (assetsQueryFn axios_get network))) pairsQuery t c)
     = (if Query.isLoading pairsQuery then PairsSpinner
        else PairsAlert "Failed to load data. Please try again later.").
Proof.
  intros Hget. unfold assetsQueryFn. rewrite Hget.
  destruct reason as [e|]; cbn; split; try reflexivity;
    destruct (Query.isLoading pairsQuery); cbn; try reflexivity;
    by destruct (Query.error pairsQuery).
Qed.

Lemma server_message_cases (error : AxiosError.t) :
  (exists m, server_message error m
     /\ js_or (response_message error) (JString (AxiosError.message error)) = m)
  \/ ((forall m, ~ server_message error m)
      /\ js_or (response_message error) (JString (AxiosError.message error))
         = JString (AxiosError.message error)).
Proof.
  destruct (js_or_details error) as [Hserver Hnone].
  unfold server_message in *. unfold response_message in *.
  destruct (AxiosError.response error) as [r|] eqn:Hr;
    [|right; split; [intros m (? & ? & ? & _); done | done]].
  destruct (AxiosResponse.data r) as [[| | | | |members]|] eqn:Hd;
    try (right; split; [intros m (r' & ms & [= <-] & Hd' & _); congruence | done]).
  destruct (member members "message") as [m|] eqn:Hm;
    [|right; split; [|done];
      intros m (r' & ms & [= <-] & Hd' & Hm' & _); congruence].
  destruct (truthy m) eqn:Ht.
  - left. exists m. split; [by exists r, members|]. simpl. by rewrite Ht.
  - right. split; [|simpl; by rewrite Ht].
    intros m' (r' & ms & [= <-] & Hd' & Hm' & Ht'). congruence.
Qed.

Lemma server_message_unique (error : AxiosError.t) (m m' : json) :
  server_message error m -> server_message error m' -> m = m'.
Proof.
  intros (r & ms & Hr & Hd & Hm & _) (r' & ms' & Hr' & Hd' & Hm' & _). congruence.
Qed.

(** X15: in the earlier layout, once the pairs request has failed with an
    Axios error the markup of the pairs card is the alert "Failed to fetch
    trading pairs" with, as details, the message the server provided, or
    else the raw error text unless that is empty.  The page mounts exactly
    when that message, if there is one, is a valid child; a message that is
    an object (or an array holding one) makes the mount throw.  Where the
    page mounts, its assets card is the one shown for any other state of
    the pairs request. *)
Theorem failed_pairs_fetch_in_earlier_layout (axios_get : string -> Settled PairsData)
    (network : Network) (error : AxiosError.t) (assetsQuery : Query.t AssetsData)
    (pairsQuery' : Query.t PairsData) (t : string) (c : option SortConfig) :
  axios_get (API_ENDPOINTS network +:+ "/api/v1/market/pairs")
    = Rejected (IsAxiosError error) ->
  exists shown page,
    page = Earlier.App assetsQuery
             (useQuery (Finished (pairsQueryFn axios_get network))) t c
    /\ Earlier.pairsCard page
       = {| Earlier.pairs_spinner := false;
            Earlier.pairs_content :=
              Earlier.ErrorAlert "Failed to fetch trading pairs" shown |}
    /\ (forall m, server_message error m -> shown = Some m)
    /\ ((forall m, ~ server_message error m) ->
        shown = if String.eqb (AxiosError.message error) "" then None
                else Some (JString (AxiosError.message error)))
    /\ (earlier_mount page = Value page
        <-> forall m, server_message error m -> valid_child m = true)
    /\ (earlier_mount page = Throw InvalidChild
        <-> exists m, server_message error m /\ valid_child m = false)
    /\ (forall mounted, earlier_mount page = Value mounted ->
          Earlier.assetsCard mounted
          = Earlier.assetsCard (Earlier.App assetsQuery pairsQuery' t c)).
Proof.
  intros Hget.
  set (details := js_or (response_message error) (JString (AxiosError.message error))).
  set (shown := if truthy details then Some details else None).
  set (page := Earlier.App assetsQuery
                 (useQuery (Finished (pairsQueryFn axios_get network))) t c).
  assert (Hcard : Earlier.pairsCard page
                  = {| Earlier.pairs_spinner := false;
                       Earlier.pairs_content :=
                         Earlier.ErrorAlert "Failed to fetch trading pairs" shown |}).
  { unfold page, pairsQueryFn. rewrite Hget. reflexivity. }
  assert (Hmount : earlier_mount page
                   = match shown with
                     | Some d => if valid_child d then Value page else Throw InvalidChild
                     | None => Value page
                     end).
  { unfold earlier_mount. rewrite Hcard. reflexivity. }
  exists shown, page. split; [reflexivity|]. split; [exact Hcard|].
  rewrite Hmount. unfold shown.
  destruct (server_message_cases error) as [(m & Hm & Hd) | (Hnone & Hd)];
    fold details in Hd; rewrite Hd.
  - assert (Ht : truthy m = true) by (by destruct Hm as (? & ? & _ & _ & _ & ?)).
    assert (Hall : forall m', server_message error m' -> m' = m).
    { intros m' Hm'. by apply (server_message_unique error). }
    rewrite Ht.
    split; [by intros m' ->%Hall|]. split; [intros H; destruct (H m Hm)|].
    destruct (valid_child m) eqn:Hv.
    + split; [split; [by intros _ m' ->%Hall | done]|].
      split; [|by intros mounted [= <-]].
      split; [done|]. intros (m' & ->%Hall & Hv'). congruence.
    + split; [split; [done|]|].
      * intros H. specialize (H m Hm). congruence.
      * split; [|done]. split; [by exists m | done].
  - split; [intros m Hm; destruct (Hnone m Hm)|].
    split; [intros _; cbn; by destruct (String.eqb (AxiosError.message error) "")|].
    assert (Hv : match (if truthy (JString (AxiosError.message error))
                        then Some (JString (AxiosError.message error)) else None) with
                 | Some d => if valid_child d then Value page else Throw InvalidChild
                 | None => Value page
                 end = Value page).
    { by destruct (truthy (JString (AxiosError.message error))). }
    rewrite Hv.
    split; [split; [intros _ m Hm; destruct (Hnone m Hm) | done]|].
    split; [|by intros mounted [= <-]].
    split; [done|]. intros (m & Hm & _). destruct (Hnone m Hm).
Qed.

(** X16: whenever [App.tsx] shows the grid, its cards are the derived
    pairs, one card each and in their order, as many as pairs match the
    search text, and the "no trading pairs found" notice is shown exactly
    when there is no card. *)
Theorem grid_shows_the_derived_pairs (assetsQuery : Query.t AssetsData)
    (pairsQuery : Query.t PairsData) (t : string) (c : option SortConfig)
    (cards : list PairCardView) (notice : bool) :
  pairsSection (Registry assetsQuery pairsQuery t c) = PairsGrid cards notice ->
  List.map card_pair cards = sortedPairs (Query.data pairsQuery) t c
  /\ length cards = length (filteredPairs (Query.data pairsQuery) t)
  /\ (notice = true <-> cards = [])
  /\ Forall (fun card =>
               card = PairCard (card_pair card) (assets_by_id (Query.data assetsQuery)))
            cards.
Proof.
  unfold Registry. cbn [pairsSection].
  destruct (Query.isLoading pairsQuery || Query.isLoading assetsQuery); [done|].
  destruct (bool_decide (is_Some (Query.error pairsQuery))
            || bool_decide (is_Some (Query.error assetsQuery))); [done|].
  intros [= <- <-].
  set (sorted := sortedPairs (Query.data pairsQuery) t c).
  split; [|split; [|split]].
  - rewrite List.map_map. cbn. apply List.map_id.
  - rewrite List.length_map. apply Permutation_length, sortedPairs_perm.
  - rewrite Nat.eqb_eq. destruct sorted; split; done.
  - apply Forall_forall. intros card Hin. apply list_elem_of_In in Hin.
    apply List.in_map_iff in Hin as (pair & <- & _). reflexivity.
Qed.

(** X13 on an asset listed twice: the later entry is shown. *)
Lemma card_shows_last_asset_of_id_witness :
  last (filter (fun x => Asset.asset_id x = Pair.base_asset_id usd_btc)
          (assets {| assets := [usd_asset; usd_asset_renamed] |}))
    = Some usd_asset_renamed
  /\ baseAsset (PairCard usd_btc
                  (assets_by_id (Some {| assets := [usd_asset; usd_asset_renamed] |})))
     = Some usd_asset_renamed
  /\ quoteAsset (PairCard usd_btc
                   (assets_by_id (Some {| assets := [usd_asset; usd_asset_renamed] |})))
     = None.
Proof.
  assert (H : last (filter (fun x => Asset.asset_id x = Pair.base_asset_id usd_btc)
                      (assets {| assets := [usd_asset; usd_asset_renamed] |}))
              = Some usd_asset_renamed) by reflexivity.
  split; [exact H|]. split; [|reflexivity].
  exact (proj1 (proj2 (proj2 (card_shows_last_asset_of_id _ _ _ H)))).
Defined.

(** X14 on the HTTP 500 answer. *)
Lemma failed_assets_fetch_on_the_page_witness :
  assetsSection (Registry assets_failed pairs_ok "" None)
  = {| assets_spinner := false;
       assets_alert := Some "Failed to fetch assets";
       assets_rows := [] |}.
Proof.
  exact (proj1 (failed_assets_fetch_on_the_page
                  (fun _ => Rejected (IsAxiosError http_500_db_down)) signet
                  (IsAxiosError http_500_db_down) pairs_ok "" None eq_refl)).
Defined.

(** X15 on the HTTP 500 answer: the server's "db down" is shown. *)
Lemma failed_pairs_fetch_in_earlier_layout_witness :
  exists page,
    page = Earlier.App assets_ok
             (useQuery (Finished
                (pairsQueryFn (fun _ => Rejected (IsAxiosError http_500_db_down)) regtest)))
             "" None
    /\ Earlier.pairs_content (Earlier.pairsCard page)
       = Earlier.ErrorAlert "Failed to fetch trading pairs" (Some (JString "db down"))
    /\ earlier_mount page = Value page.
Proof.
  destruct (failed_pairs_fetch_in_earlier_layout
              (fun _ => Rejected (IsAxiosError http_500_db_down)) regtest
              http_500_db_down assets_ok pairs_ok "" None eq_refl)
    as (shown & page & Hpage & Hcard & Hserver & _ & Hmount & _).
  assert (Hm : server_message http_500_db_down (JString "db down")).
  { unfold server_message. eexists _, _. repeat split; reflexivity. }
  exists page. split; [exact Hpage|]. split.
  - rewrite Hcard. cbn. f_equal. by apply Hserver.
  - apply Hmount. intros m Hm'.
    by rewrite (server_message_unique _ _ _ Hm' Hm).
Defined.

(** A server message that is an object: the earlier layout cannot mount. *)
Example earlier_layout_object_message :
  earlier_mount
    (Earlier.App assets_ok
       (useQuery (Finished
          (pairsQueryFn (fun _ => Rejected (IsAxiosError http_500_object_message)) regtest)))
       "" None)
  = Throw InvalidChild.
Proof. reflexivity. Qed.

(** X16 on the sample data and the text "eth". *)
Lemma grid_shows_the_derived_pairs_witness :
  pairsSection (Registry assets_ok pairs_ok "eth" None)
  = PairsGrid [ {| card_pair := eth_usd; baseAsset := None;
                   quoteAsset := Some usd_asset |} ] false
  /\ List.map card_pair [ {| card_pair := eth_usd; baseAsset := None;
                             quoteAsset := Some usd_asset |} ]
     = sortedPairs (Query.data pairs_ok) "eth" None.
Proof.
  split; [reflexivity|].
  exact (proj1 (grid_shows_the_derived_pairs assets_ok pairs_ok "eth" None _ false
                  eq_refl)).
Defined.
